(** * Meeting-summary pipeline (main.py): shallow embedding and properties

    The program loads a transcript and a YAML question set, asks a language
    model one question at a time ([get_answer]), and fills a markdown
    template with the answers ([get_summary_file]), optionally rendering a
    PDF.

    Modelling conventions.
    - A Python [str] and the bytes of a file are both a Rocq [string]: the
      sequence of bytes of the UTF-8 encoding.  Text-mode reads translate
      line endings ([universal_newlines]); text-mode writes on POSIX do not.
    - A Python [dict] is an association list in insertion order whose keys
      are pairwise distinct ([dict_wf]); [dict_set] is [d[k] = v].
    - The keys of a mapping that [safe_load] returns are strings, and a
      scalar is [None], a boolean, an integer or a string.
    - The file system is a finite map from paths to contents: a path names
      a file by its spelling.  Directories, permissions and links are not
      modelled.
    - The YAML parser, the model backend, the PDF engine, [uuid4] and the
      location of the script are external: they are the members of the
      class [Externals]. *)

From Stdlib Require Import ZArith Ascii String.
From stdpp Require Import base option list strings gmap.

Set Default Proof Using "Type".

(** ** Text primitives *)

Definition LF : ascii := "010"%char.
Definition CR : ascii := "013"%char.
Definition nl : string := String LF "".

(** [s.startswith(p)] *)
Fixpoint startswith (p s : string) : bool :=
  match p, s with
  | "", _ => true
  | String a p', String b s' => if decide (a = b) then startswith p' s' else false
  | String _ _, "" => false
  end.

(** [s[n:]] *)
Fixpoint drop_str (n : nat) (s : string) : string :=
  match n, s with
  | O, _ => s
  | S n', String _ s' => drop_str n' s'
  | S _, "" => ""
  end.

(** [s[:n]] *)
Fixpoint take_str (n : nat) (s : string) : string :=
  match n, s with
  | O, _ => ""
  | S n', String a s' => String a (take_str n' s')
  | S _, "" => ""
  end.

(** [s[:-k]] for a literal [k > 0] *)
Definition drop_last (k : nat) (s : string) : string :=
  take_str (String.length s - k) s.

(** The scan of [str.replace] for a non-empty [old], left to right:
    [skip] counts the characters of a match that are still to be passed
    over. *)
Fixpoint replace_from (old new : string) (skip : nat) (s : string) : string :=
  match s with
  | "" => ""
  | String c r =>
      match skip with
      | S k => replace_from old new k r
      | O =>
          if startswith old s
          then new +:+ replace_from old new (String.length old - 1) r
          else String c (replace_from old new 0 r)
      end
  end.

(** [s.replace("", new)]: [new] before every character and at the end. *)
Fixpoint replace_empty (new s : string) : string :=
  match s with
  | "" => new
  | String c r => new +:+ String c (replace_empty new r)
  end.

(** [s.replace(old, new)] *)
Definition replace (s old new : string) : string :=
  match old with
  | "" => replace_empty new s
  | String _ _ => replace_from old new 0 s
  end.

(** Line-ending translation of a text-mode read ([newline=None]): each of
    CR LF and a lone CR becomes LF. *)
Fixpoint universal_newlines (s : string) : string :=
  match s with
  | "" => ""
  | String c r =>
      if decide (c = CR) then
        match r with
        | String c' r' =>
            if decide (c' = LF) then String LF (universal_newlines r')
            else String LF (universal_newlines r)
        | "" => String LF ""
        end
      else String c (universal_newlines r)
  end.

(** Split a text after every LF, keeping the LF at the end of its line. *)
Fixpoint split_lines (s : string) : list string :=
  match s with
  | "" => []
  | String c r =>
      if decide (c = LF) then String c "" :: split_lines r
      else match split_lines r with
           | [] => [String c ""]
           | l :: ls => String c l :: ls
           end
  end.

(** [''.join(lines)] *)
Fixpoint join_lines (lines : list string) : string :=
  match lines with
  | [] => ""
  | l :: ls => l +:+ join_lines ls
  end.

(** [os.path.join(a, b)] on POSIX. *)
Definition ends_with_slash (a : string) : bool :=
  match String.rev a with
  | String "/" _ => true
  | _ => false
  end.

Definition join (a b : string) : string :=
  if startswith "/" b then b
  else if decide (a = "") then b
  else if ends_with_slash a then a +:+ b
  else a +:+ "/" +:+ b.

Definition join3 (a b c : string) : string := join (join a b) c.

(** A substring test used in statements: [old in s]. *)
Definition occurs (old s : string) : Prop :=
  ∃ a b, s = a +:+ old +:+ b.

(** ** Exceptions and outcomes *)

Inductive exn : Type :=
  | FileNotFoundError (path : string)
  | SameFileError (src dst : string)
  | IndexError
  | ValueError (x : string)
  | KeyError (key : string)
  | TypeError
  | AttributeError
  | Foreign (cls msg : string).

(** The name of the exception's class.  [Foreign] is an exception raised
    inside an external collaborator, which names its own class. *)
Definition exn_class (e : exn) : string :=
  match e with
  | FileNotFoundError _ => "FileNotFoundError"
  | SameFileError _ _ => "SameFileError"
  | IndexError => "IndexError"
  | ValueError _ => "ValueError"
  | KeyError _ => "KeyError"
  | TypeError => "TypeError"
  | AttributeError => "AttributeError"
  | Foreign cls _ => cls
  end.

Inductive outcome (A : Type) : Type :=
  | Ok (a : A)
  | Raise (e : exn).
Arguments Ok {A} a.
Arguments Raise {A} e.

(** ** Python values as [safe_load] returns them *)

#[warnings="-register-all"]
Inductive pyval : Type :=
  | PNone
  | PBool (b : bool)
  | PInt (z : Z)
  | PStr (s : string)
  | PList (l : list pyval)
  | PDict (d : list (string * pyval)).

Definition dict (V : Type) : Type := list (string * V).

Definition dict_wf {V} (d : dict V) : Prop := NoDup d.*1.

(** [d[k]], [None] standing for [KeyError] *)
Fixpoint dict_get {V} (k : string) (d : dict V) : option V :=
  match d with
  | [] => None
  | (k', v) :: d' => if decide (k = k') then Some v else dict_get k d'
  end.

(** [d[k] = v]: an existing key keeps its position, a new key goes last. *)
Fixpoint dict_set {V} (k : string) (v : V) (d : dict V) : dict V :=
  match d with
  | [] => [(k, v)]
  | (k', v') :: d' =>
      if decide (k = k') then (k', v) :: d' else (k', v') :: dict_set k v d'
  end.

(** [questions.items()] *)
Definition items (questions : pyval) : outcome (dict pyval) :=
  match questions with
  | PDict d => Ok d
  | _ => Raise AttributeError
  end.

(** [value[k]] for a string literal [k] *)
Definition subscript (value : pyval) (k : string) : outcome pyval :=
  match value with
  | PDict d =>
      match dict_get k d with
      | Some v => Ok v
      | None => Raise (KeyError k)
      end
  | _ => Raise TypeError
  end.

(** [lines[i]] *)
Definition getitem (lines : list string) (i : nat) : outcome string :=
  match lines !! i with
  | Some l => Ok l
  | None => Raise IndexError
  end.

(** [lines.index(x)] *)
Fixpoint index (lines : list string) (x : string) : outcome nat :=
  match lines with
  | [] => Raise (ValueError x)
  | l :: ls =>
      if decide (l = x) then Ok 0
      else match index ls x with
           | Ok i => Ok (S i)
           | Raise e => Raise e
           end
  end.

(** ** The outside world *)

(** [Section(text, toc=..., root=..., borders=...)] of markdown_pdf.  The
    engine adds [borders] componentwise to the page rectangle
    [(x0, y0, x1, y1)]. *)
Record pdf_section : Type := PdfSection {
  sec_text : string;
  sec_toc : bool;
  sec_root : string;
  sec_borders : Z * Z * Z * Z;
}.

(** What the run lets the outside observe besides files, oldest first. *)
Inductive event : Type :=
  | PrintQuestion (question : pyval)
  | PrintGenerating
  | Invoke (transcript : string) (question ans_template : pyval)
  | AddSection (s : pdf_section).

Class Externals : Type := {
  (** state of the model server *)
  backend : Type;
  (** [chain.invoke(input={...})]: the prompt frame is fixed, so a call is
      determined by its three variables *)
  invoke : backend → string → pyval → pyval → backend * outcome string;
  (** [str(uuid4())] of the n-th draw *)
  uuid4 : nat → string;
  (** [yaml.safe_load] on the text of a file *)
  safe_load : string → outcome pyval;
  (** [MarkdownPdf().add_section(s)] followed by [save]: the bytes of the
      PDF, or the engine's exception *)
  render : pdf_section → outcome string;
  (** [dirname(abspath(__file__))] *)
  PATH_TO_DIR : string;
}.

Section program.
Context `{Externals}.

Record world : Type := World {
  fs : gmap string string;
  llm : backend;
  drawn : nat;
  trace : list event;
}.

(** A statement: from a world to an outcome and the world it leaves. *)
Definition prog (A : Type) : Type := world → outcome A * world.

Definition ret {A} (a : A) : prog A := λ w, (Ok a, w).

Definition bind {A B} (m : prog A) (k : A → prog B) : prog B :=
  λ w, match m w with
       | (Ok a, w') => k a w'
       | (Raise e, w') => (Raise e, w')
       end.

Definition lift {A} (r : outcome A) : prog A := λ w, (r, w).

#[global] Instance prog_ret : MRet prog := @ret.
#[global] Instance prog_bind : MBind prog := λ A B k m, bind m k.

Definition emit (e : event) : prog unit :=
  λ w, (Ok tt, World (fs w) (llm w) (drawn w) (trace w ++ [e])).

(** [with open(path, "r") as f: f.read()] *)
Definition read_text (path : string) : prog string :=
  λ w, match fs w !! path with
       | Some bytes => (Ok (universal_newlines bytes), w)
       | None => (Raise (FileNotFoundError path), w)
       end.

(** [shutil.copy(src, dst)] *)
Definition copy (src dst : string) : prog unit :=
  λ w, match fs w !! src with
       | None => (Raise (FileNotFoundError src), w)
       | Some bytes =>
           if decide (src = dst) then (Raise (SameFileError src dst), w)
           else (Ok tt, World (<[dst := bytes]> (fs w)) (llm w) (drawn w) (trace w))
       end.

(** [f.seek(0); f.write(text)] on a file opened with ["r+"], as the file
    stands once it is closed: the bytes of [text] over the start of the old
    content, the rest of the old content kept. *)
Definition overwrite (old text : string) : string :=
  text +:+ drop_str (String.length text) old.

Definition seek0_write (path text : string) : prog unit :=
  λ w, match fs w !! path with
       | None => (Raise (FileNotFoundError path), w)
       | Some old =>
           (Ok tt, World (<[path := overwrite old text]> (fs w))
                         (llm w) (drawn w) (trace w))
       end.

(** [pdf.save(path)] *)
Definition save (path bytes : string) : prog unit :=
  λ w, (Ok tt, World (<[path := bytes]> (fs w)) (llm w) (drawn w) (trace w)).

Definition draw_uuid4 : prog string :=
  λ w, (Ok (uuid4 (drawn w)), World (fs w) (llm w) (S (drawn w)) (trace w)).

Definition chain_invoke (transcript : string) (question ans_template : pyval)
  : prog string :=
  λ w, let '(b, r) := invoke (llm w) transcript question ans_template in
       (r, World (fs w) b (drawn w)
                 (trace w ++ [Invoke transcript question ans_template])).

(** ** The program *)

(** The settings of the model ([TEMPERATURE = 0.2] besides these two): the
    program hands them to the backend and does nothing else with them. *)
Definition CONTEXT_LEN : Z := 15000.
Definition MAX_PRED_LEN : Z := 512.

Definition get_transcript (path : string) : prog string :=
  transcript ← read_text path;
  mret transcript.

Definition get_questions (path : string) : prog pyval :=
  text ← read_text path;
  questions ← lift (safe_load text);
  mret questions.

(** The body of the loop of [get_answer], for one [(key, value)] of
    [questions.items()]. *)
Definition answer_field (transcript : string) (result : dict string)
    (kv : string * pyval) : prog (dict string) :=
  let field := kv.1 in
  question ← lift (subscript kv.2 "question");
  ans_template ← lift (subscript kv.2 "ans_template");
  emit (PrintQuestion question);;
  answer ← chain_invoke transcript question ans_template;
  mret (dict_set field answer result).

Fixpoint answer_fields (transcript : string) (result : dict string)
    (its : dict pyval) : prog (dict string) :=
  match its with
  | [] => mret result
  | kv :: its' =>
      result' ← answer_field transcript result kv;
      answer_fields transcript result' its'
  end.

Definition get_answer (transcript : string) (questions : pyval)
  : prog (dict string) :=
  its ← lift (items questions);
  answer_fields transcript [] its.

(** [f":::{field}:::\n"] *)
Definition placeholder (field : string) : string :=
  ":::" +:+ field +:+ ":::" +:+ nl.

(** [lines[lines.index(f":::{field}:::\n")] = ans] *)
Definition fill_field (lines : list string) (fa : string * string)
  : outcome (list string) :=
  match index lines (placeholder fa.1) with
  | Ok i => Ok (<[i := fa.2]> lines)
  | Raise e => Raise e
  end.

(** [for field, ans in result.items(): ...] *)
Fixpoint fill_fields (lines : list string) (result : dict string)
  : outcome (list string) :=
  match result with
  | [] => Ok lines
  | fa :: result' =>
      match fill_field lines fa with
      | Ok lines' => fill_fields lines' result'
      | Raise e => Raise e
      end
  end.

(** [lines[1] = lines[1].replace(":::path_to_img:::", f"{path_to_logo}")] *)
Definition fill_logo (lines : list string) (path_to_logo : string)
  : outcome (list string) :=
  match getitem lines 1 with
  | Ok l => Ok (<[1 := replace l ":::path_to_img:::" path_to_logo]> lines)
  | Raise e => Raise e
  end.

(** [f"summary{str(uuid4())}.md"] *)
Definition file_name_of (token : string) : string :=
  "summary" +:+ token +:+ ".md".

(** The [with open(path_to_file, "r+")] block holds everything from
    [readlines] on; the file is closed, and the text written, however the
    block is left. *)
Definition get_summary_file (path : string) (result : dict string)
    (make_pdf : bool) : prog unit :=
  token ← draw_uuid4;
  let file_name := file_name_of token in
  let path_to_file := join PATH_TO_DIR file_name in
  let path_to_logo := join "template" "img.svg" in
  copy path path_to_file;;
  content ← read_text path_to_file;
  let lines := split_lines content in
  lines ← lift (fill_logo lines path_to_logo);
  lines ← lift (fill_fields lines result);
  let text := join_lines lines in
  seek0_write path_to_file text;;
  if make_pdf then
    let path_to_pdf := drop_last 2 path_to_file +:+ "pdf" in
    let section := PdfSection text false PATH_TO_DIR (10, 10, -10, -10)%Z in
    emit (AddSection section);;
    pdf ← lift (render section);
    save path_to_pdf pdf
  else mret tt.

Definition main : prog unit :=
  let path_to_transcript := join PATH_TO_DIR "transcript.md" in
  let path_to_template := join3 PATH_TO_DIR "template" "template.md" in
  let path_to_questions := join3 PATH_TO_DIR "template" "questions.yaml" in
  transcript ← get_transcript path_to_transcript;
  questions ← get_questions path_to_questions;
  result ← get_answer transcript questions;
  emit PrintGenerating;;
  get_summary_file path_to_template result true.

End program.

(** ** Vocabulary of the statements *)

(** The two members of an entry that the loop of [get_answer] reads. *)
Definition reads (value : pyval) (qa : pyval * pyval) : Prop :=
  subscript value "question" = Ok qa.1 ∧
  subscript value "ans_template" = Ok qa.2.

(** What one turn of the loop shows the outside: the progress line, then
    the call of the backend. *)
Definition turn (transcript : string) (qa : pyval * pyval) : list event :=
  [PrintQuestion qa.1; Invoke transcript qa.1 qa.2].

(** The events of the loop of [get_answer]. *)
Definition loop_event (e : event) : Prop :=
  match e with
  | PrintQuestion _ | Invoke _ _ _ => True
  | PrintGenerating | AddSection _ => False
  end.

Definition TOKEN : string := ":::path_to_img:::".
Definition LOGO : string := "template/img.svg".

(** The lines [readlines] gives for a file with these bytes. *)
Definition readlines (bytes : string) : list string :=
  split_lines (universal_newlines bytes).

(** The value of [text] in [get_summary_file] for a template with these
    bytes, or the exception of the line that fails. *)
Definition assemble (bytes : string) (result : dict string) : outcome string :=
  match fill_logo (readlines bytes) LOGO with
  | Ok lines =>
      match fill_fields lines result with
      | Ok lines' => Ok (join_lines lines')
      | Raise e => Raise e
      end
  | Raise e => Raise e
  end.

(** The contract of the assembler's input: no answer is itself a
    placeholder line of a field, and the image line is none either, before
    or after its substitution. *)
Definition independent (lines lines0 : list string) (result : dict string)
  : Prop :=
  ∀ f, f ∈ result.*1 →
    (∀ a, a ∈ result.*2 → a ≠ placeholder f) ∧
    lines !! 1 ≠ Some (placeholder f) ∧
    lines0 !! 1 ≠ Some (placeholder f).

(** A check that replacing [old] by [new] cannot leave or create an
    occurrence of [old]: no non-empty end of [old] starts [new], [new] does
    not start any end of [old], and no non-empty end of [new] agrees with
    [old] as far as both go. *)
Fixpoint suffixes (s : string) : list string :=
  match s with
  | "" => [""]
  | String _ r => s :: suffixes r
  end.

Fixpoint agree (a b : string) : bool :=
  match a, b with
  | String x a', String y b' => if decide (x = y) then agree a' b' else false
  | _, _ => true
  end.

Definition is_empty (s : string) : bool :=
  match s with "" => true | String _ _ => false end.

Definition overlap_free (old new : string) : bool :=
  forallb (λ k, is_empty k || negb (startswith k new)) (suffixes old) &&
  forallb (λ k, negb (startswith new k)) (suffixes old) &&
  forallb (λ k, is_empty k || negb (agree old k)) (suffixes new).

Section vocabulary.
Context `{Externals}.

Definition never_raises : Prop :=
  ∀ b transcript question ans_template,
    ∃ answer, (invoke b transcript question ans_template).2 = Ok answer.

(** The two paths a run started in [w] writes to. *)
Definition path_to_file (w : world) : string :=
  join PATH_TO_DIR (file_name_of (uuid4 (drawn w))).

Definition path_to_pdf (w : world) : string :=
  drop_last 2 (path_to_file w) +:+ "pdf".

(** The world once the token is drawn and the template is copied. *)
Definition copied (w : world) (bytes : string) : world :=
  World (<[path_to_file w := bytes]> (fs w)) (llm w) (S (drawn w)) (trace w).

(** The world once [text] is written over the copy of [bytes]. *)
Definition written (w : world) (bytes text : string) : world :=
  World (<[path_to_file w := overwrite bytes text]> (fs w))
        (llm w) (S (drawn w)) (trace w).

Definition the_section (text : string) : pdf_section :=
  PdfSection text false PATH_TO_DIR (10, 10, -10, -10)%Z.

End vocabulary.

(** ** What [str.replace] promises *)

(** [Replaced old new s t]: [t] is [s] with the leftmost occurrence of
    [old] replaced by [new], then the leftmost one of what follows it, and
    so on until none is left. *)
Inductive Replaced (old new : string) : string → string → Prop :=
  | Replaced_none s :
      ¬ occurs old s → Replaced old new s s
  | Replaced_hit a b b' :
      (∀ a' b0, a +:+ old +:+ b = a' +:+ old +:+ b0 →
                String.length a ≤ String.length a') →
      Replaced old new b b' →
      Replaced old new (a +:+ old +:+ b) (a +:+ new +:+ b').

(** ** Stub collaborators for concrete runs *)

Definition yaml_date : string :=
  "date:" +:+ nl +:+
  "  question: When did the call occur?" +:+ nl +:+
  "  ans_template: DD.MM.YYYY" +:+ nl.

Definition questions_date : dict pyval :=
  [("date", PDict [("question", PStr "When did the call occur?");
                   ("ans_template", PStr "DD.MM.YYYY")])].

(** An entry without its [ans_template] member. *)
Definition yaml_no_template : string :=
  "date:" +:+ nl +:+
  "  question: When did the call occur?" +:+ nl.

Definition questions_no_template : dict pyval :=
  [("date", PDict [("question", PStr "When did the call occur?")])].

(** A YAML sequence, not a mapping. *)
Definition yaml_sequence : string := "- date" +:+ nl.

(** The parser on the three documents above; any other text is taken to
    be ill-formed YAML. *)
Definition stub_safe_load (text : string) : outcome pyval :=
  if decide (text = yaml_date) then Ok (PDict questions_date)
  else if decide (text = yaml_no_template) then Ok (PDict questions_no_template)
  else if decide (text = yaml_sequence) then Ok (PList [PStr "date"])
  else Raise (Foreign "ScannerError" "while scanning").

Definition stub_uuid4 (n : nat) : string :=
  match n with
  | O => "3f2b8c1e-5a7d-4e0b-9c6a-1d2e3f4a5b6c"
  | S _ => "9a8b7c6d-1e2f-4a3b-8c4d-5e6f7a8b9c0d"
  end.

(** A backend that answers every question with the same date. *)
Definition stub : Externals := {|
  backend := unit;
  invoke := λ b _ _ _, (b, Ok "03.04.2024");
  uuid4 := stub_uuid4;
  safe_load := stub_safe_load;
  render := λ s, Ok ("%PDF-1.7 " +:+ sec_text s);
  PATH_TO_DIR := "/app";
|}.

(** A backend that cannot be reached. *)
Definition stub_down : Externals := {|
  backend := unit;
  invoke := λ b _ _ _, (b, Raise (Foreign "ConnectionError" "connection refused"));
  uuid4 := stub_uuid4;
  safe_load := stub_safe_load;
  render := λ s, Ok ("%PDF-1.7 " +:+ sec_text s);
  PATH_TO_DIR := "/app";
|}.

Definition template_date : string :=
  "# Summary" +:+ nl +:+
  "![logo](:::path_to_img:::)" +:+ nl +:+
  ":::date:::" +:+ nl.

Definition fs_date (yaml : string) : gmap string string :=
  <["/app/transcript.md" :=
      "The call took place on 03.04.2024 to discuss pricing."]>
  (<["/app/template/template.md" := template_date]>
  (<["/app/template/questions.yaml" := yaml]> ∅)).

Definition answers_date : dict string := [("date", "03.04.2024")].

(** An answer whose field has no placeholder line in [template_date]. *)
Definition answers_owner : dict string := [("owner", "Ann")].

(** A template of one line. *)
Definition template_short : string := "# Summary" +:+ nl.

Definition world_short : @world stub :=
  @World stub (<["/app/template/template.md" := template_short]> ∅) tt 0 [].

(** A template whose image token is on the first line, not the second. *)
Definition template_misplaced : string :=
  "![logo](:::path_to_img:::)" +:+ nl +:+ "# Summary" +:+ nl.

Definition world_misplaced : @world stub :=
  @World stub (<["/app/template/template.md" := template_misplaced]> ∅)
    tt 0 [].

Definition world_date (yaml : string) : @world stub :=
  @World stub (fs_date yaml) tt 0 [].

Definition world_down : @world stub_down :=
  @World stub_down (fs_date yaml_date) tt 0 [].

(** ** Vocabulary of the further properties *)

(** [s] has a carriage return in it. *)
Definition has_CR (s : string) : Prop := occurs (String CR "") s.

(** [s] has a line break that is followed by more text. *)
Definition has_second_line (s : string) : Prop :=
  ∃ a b, s = a +:+ nl +:+ b ∧ b ≠ "".

(** [s] ends with a line break. *)
Definition ends_with_nl (s : string) : Prop := ∃ a, s = a +:+ nl.

(** A template whose last line, a placeholder, has no line break. *)
Definition template_unterminated : string :=
  "# Summary" +:+ nl +:+
  "![logo](:::path_to_img:::)" +:+ nl +:+
  ":::date:::".



#[global] Instance exn_eq_dec : EqDecision exn.
Proof. solve_decision. Defined.

#[global] Instance outcome_eq_dec {A} `{EqDecision A} : EqDecision (outcome A).
Proof. solve_decision. Defined.

(** The same answers, asked for in another order. *)
Definition answers_two : dict string :=
  [("date", "03.04.2024"); ("owner", "Ann")].

Definition answers_two_swapped : dict string :=
  [("owner", "Ann"); ("date", "03.04.2024")].

Definition template_two : string :=
  "# Summary" +:+ nl +:+
  "![logo](:::path_to_img:::)" +:+ nl +:+
  ":::owner:::" +:+ nl +:+
  ":::date:::" +:+ nl.

Definition world_two : @world stub :=
  @World stub (<["/app/template/template.md" := template_two]> ∅) tt 0 [].

Section replies.
Context `{Externals}.

(** What the backend, starting in state [b], replies to these calls one
    after the other, up to the first call that raises. *)
Fixpoint replies (b : backend) (transcript : string)
    (calls : list (pyval * pyval)) : list string :=
  match calls with
  | [] => []
  | qa :: calls' =>
      match invoke b transcript qa.1 qa.2 with
      | (b', Ok answer) => answer :: replies b' transcript calls'
      | (_, Raise _) => []
      end
  end.

End replies.

(** A backend that numbers its replies. *)
Definition stub_counting : Externals := {|
  backend := nat;
  invoke := λ n _ _ _, (S n, Ok (match n with O => "first" | S _ => "later" end));
  uuid4 := stub_uuid4;
  safe_load := stub_safe_load;
  render := λ s, Ok ("%PDF-1.7 " +:+ sec_text s);
  PATH_TO_DIR := "/app";
|}.

Definition questions_two : dict pyval :=
  [("date", PDict [("question", PStr "When?"); ("ans_template", PStr "DD.MM.YYYY")]);
   ("owner", PDict [("question", PStr "Who?"); ("ans_template", PStr "Name")])].

Definition world_counting : @world stub_counting :=
  @World stub_counting (fs_date yaml_date) 0 0 [].

(** [old in s], computed. *)
Fixpoint contains (old s : string) : bool :=
  startswith old s ||
  match s with
  | "" => false
  | String _ r => contains old r
  end.

(** A computed check that no answer is a placeholder line of a field. *)
Definition no_answer_is_a_placeholder (result : dict string) : bool :=
  forallb (λ f, forallb (λ a, negb (String.eqb a (placeholder f))) result.*2)
          result.*1.

(** * Properties *)

(** ** Strings *)

Lemma app_cons c a b : String c a +:+ b = String c (a +:+ b).
Proof. reflexivity. Qed.

Lemma app_empty_l b : "" +:+ b = b.
Proof. reflexivity. Qed.

Lemma app_empty_r a : a +:+ "" = a.
Proof. induction a as [|c a IH]; [done|]. by rewrite app_cons, IH. Qed.

Lemma app_assoc_str a b c : (a +:+ b) +:+ c = a +:+ b +:+ c.
Proof. induction a as [|x a IH]; [done|]. by rewrite !app_cons, IH. Qed.

Lemma length_app_str a b :
  String.length (a +:+ b) = String.length a + String.length b.
Proof. induction a as [|x a IH]; [done|]. rewrite app_cons. simpl. by rewrite IH. Qed.

Lemma app_inv_tail_str a b c : a +:+ c = b +:+ c → a = b.
Proof.
  revert b. induction a as [|x a IH]; intros [|y b] E.
  - done.
  - apply (f_equal String.length) in E.
    rewrite !length_app_str in E. simpl in E. lia.
  - apply (f_equal String.length) in E.
    rewrite !length_app_str in E. simpl in E. lia.
  - rewrite !app_cons in E. injection E as -> E. f_equal. by apply IH.
Qed.

Lemma startswith_spec p s : startswith p s = true ↔ ∃ r, s = p +:+ r.
Proof.
  revert s. induction p as [|a p IH]; intros s; simpl.
  - split; [intros _; by exists s | done].
  - destruct s as [|b s].
    + split; [done | intros [r E]; by rewrite app_cons in E].
    + destruct (decide (a = b)) as [->|Hne].
      * rewrite IH. split; intros [r E]; exists r.
        -- by rewrite app_cons, E.
        -- rewrite app_cons in E. by injection E.
      * split; [done|]. intros [r E]. rewrite app_cons in E.
        injection E as E1 E2. congruence.
Qed.

Lemma startswith_app p r : startswith p (p +:+ r) = true.
Proof. apply startswith_spec. by exists r. Qed.

Lemma startswith_false p s :
  startswith p s = false ↔ ∀ r, s ≠ p +:+ r.
Proof.
  split.
  - intros E r ->. by rewrite startswith_app in E.
  - intros Hn. destruct (startswith p s) eqn:E; [|done].
    apply startswith_spec in E as [r ->]. by destruct (Hn r).
Qed.

Lemma drop_str_app a b : drop_str (String.length a) (a +:+ b) = b.
Proof. induction a as [|x a IH]; [done|]. by rewrite app_cons. Qed.

Lemma drop_str_all s n : String.length s ≤ n → drop_str n s = "".
Proof.
  revert n. induction s as [|c s IH]; intros [|n] Hn; simpl in *; try done; try lia.
  apply IH. lia.
Qed.

Lemma take_str_app a b : take_str (String.length a) (a +:+ b) = a.
Proof. induction a as [|x a IH]; [done|]. rewrite app_cons. simpl. by rewrite IH. Qed.

Lemma drop_last_app a b : drop_last (String.length b) (a +:+ b) = a.
Proof.
  unfold drop_last. rewrite length_app_str.
  replace (String.length a + String.length b - String.length b)
    with (String.length a) by lia.
  apply take_str_app.
Qed.

Lemma join_split_lines s : join_lines (split_lines s) = s.
Proof.
  induction s as [|c s IH]; [done|]. simpl.
  destruct (decide (c = LF)) as [->|Hc]; simpl.
  - by rewrite IH.
  - destruct (split_lines s) as [|l ls]; simpl in *.
    + by rewrite <- IH.
    + by rewrite app_cons, IH.
Qed.

Lemma join_lines_app a b :
  join_lines (a ++ b) = join_lines a +:+ join_lines b.
Proof.
  induction a as [|l a IH]; [done|]. simpl. by rewrite IH, app_assoc_str.
Qed.

Lemma join_lines_insert lines i x :
  i < length lines →
  join_lines (<[i := x]> lines)
  = join_lines (take i lines) +:+ x +:+ join_lines (drop (S i) lines).
Proof.
  intros Hi. by rewrite insert_take_drop, join_lines_app by done.
Qed.

Lemma occurs_empty old : old ≠ "" → ¬ occurs old "".
Proof.
  intros Hold (a & b & E). apply (f_equal String.length) in E.
  rewrite !length_app_str in E. destruct old; [done|]. simpl in E. lia.
Qed.

Lemma occurs_cons old c r : occurs old r → occurs old (String c r).
Proof. intros (a & b & ->). exists (String c a), b. by rewrite app_cons. Qed.

Lemma occurs_cons_inv old c r :
  occurs old (String c r) → startswith old (String c r) = true ∨ occurs old r.
Proof.
  intros ([|x a] & b & E).
  - left. rewrite app_empty_l in E. rewrite E. apply startswith_app.
  - right. rewrite app_cons in E. injection E as _ ->. by exists a, b.
Qed.

Lemma replace_from_skip old new a b :
  replace_from old new (String.length a) (a +:+ b) = replace_from old new 0 b.
Proof.
  induction a as [|x a IH].
  - by rewrite app_empty_l.
  - rewrite app_cons. cbn [String.length replace_from]. apply IH.
Qed.

Lemma replace_from_hit old new b :
  old ≠ "" →
  replace_from old new 0 (old +:+ b) = new +:+ replace_from old new 0 b.
Proof.
  destruct old as [|c o]; [done|]. intros _.
  assert (startswith (String c o) (String c (o +:+ b)) = true) as Hs
    by (rewrite <- app_cons; apply startswith_app).
  rewrite app_cons. cbn [replace_from]. rewrite Hs.
  f_equal. cbn [String.length]. rewrite Nat.sub_1_r. cbn [Nat.pred].
  apply replace_from_skip.
Qed.

Lemma replace_from_miss old new c r :
  startswith old (String c r) = false →
  replace_from old new 0 (String c r) = String c (replace_from old new 0 r).
Proof. intros E. cbn [replace_from]. by rewrite E. Qed.

Lemma replace_from_absent old new s :
  old ≠ "" → ¬ occurs old s → replace_from old new 0 s = s.
Proof.
  intros Hold. induction s as [|c r IH]; intros Hno; [done|].
  rewrite replace_from_miss.
  - f_equal. apply IH. intros Hr. apply Hno. by apply occurs_cons.
  - destruct (startswith old (String c r)) eqn:E; [|done].
    destruct Hno. apply startswith_spec in E as [t E].
    exists "", t. by rewrite app_empty_l.
Qed.

Lemma Replaced_cons old new c r r' :
  startswith old (String c r) = false →
  Replaced old new r r' → Replaced old new (String c r) (String c r').
Proof.
  intros Hmiss Hr. destruct Hr as [s Hno | a b b' Hleft Hb].
  - apply Replaced_none. intros [E|Ho]%occurs_cons_inv; [congruence | done].
  - rewrite <- !app_cons. apply Replaced_hit; [|done].
    intros [|x a'] b0 E.
    + rewrite app_empty_l, app_cons in E.
      apply startswith_false with (r := b0) in Hmiss. by destruct Hmiss.
    + rewrite !app_cons in E. injection E as _ E. apply Hleft in E.
      simpl. lia.
Qed.

Lemma replace_from_Replaced old new s :
  old ≠ "" → Replaced old new s (replace_from old new 0 s).
Proof.
  intros Hold. remember (String.length s) as n eqn:Hn. revert s Hn.
  induction n as [n IH] using lt_wf_ind. intros s Hn.
  destruct s as [|c r].
  - apply Replaced_none. by apply occurs_empty.
  - destruct (startswith old (String c r)) eqn:E.
    + apply startswith_spec in E as [b E]. rewrite E.
      rewrite replace_from_hit by done.
      apply (Replaced_hit old new "" b (replace_from old new 0 b)).
      * intros; simpl; lia.
      * apply (IH (String.length b)); [|done].
        rewrite Hn, E, length_app_str. destruct old; [done|]. simpl. lia.
    + rewrite replace_from_miss by done. apply Replaced_cons; [done|].
      apply (IH (String.length r)); [|done]. rewrite Hn. simpl. lia.
Qed.

Lemma replace_Replaced s old new :
  old ≠ "" → Replaced old new s (replace s old new).
Proof.
  intros Hold. unfold replace. destruct old; [done|].
  by apply replace_from_Replaced.
Qed.

Lemma replace_absent s old new :
  old ≠ "" → ¬ occurs old s → replace s old new = s.
Proof.
  intros Hold Hno. unfold replace. destruct old; [done|].
  by apply replace_from_absent.
Qed.

Lemma app_eq_app_str a u x v :
  a +:+ u = x +:+ v →
  (∃ m, x = a +:+ m ∧ u = m +:+ v) ∨ (∃ m, a = x +:+ m ∧ v = m +:+ u).
Proof.
  revert x. induction a as [|c a IH]; intros x E.
  - left. exists x. by rewrite !app_empty_l in *.
  - destruct x as [|d x].
    + right. exists (String c a). by rewrite !app_empty_l in *.
    + rewrite !app_cons in E. injection E as -> E.
      destruct (IH x E) as [(m & -> & ->)|(m & -> & ->)].
      * left. exists m. by rewrite app_cons.
      * right. exists m. by rewrite app_cons.
Qed.

Lemma suffixes_spec s m k : s = m +:+ k → In k (suffixes s).
Proof.
  revert s. induction m as [|c m IH]; intros s ->.
  - rewrite app_empty_l. destruct k; simpl; auto.
  - rewrite app_cons. simpl. right. by apply IH.
Qed.

Lemma agree_spec a b y z : a +:+ y = b +:+ z → agree a b = true.
Proof.
  revert b. induction a as [|c a IH]; intros [|d b] E; simpl; try done.
  rewrite !app_cons in E. injection E as -> E.
  rewrite decide_True by done. by apply IH.
Qed.

Lemma is_empty_false k : k ≠ "" → is_empty k = false.
Proof. by destruct k. Qed.

Lemma Replaced_clean old new s t :
  old ≠ "" → overlap_free old new = true →
  Replaced old new s t → ¬ occurs old t.
Proof.
  intros Hold Hfree. unfold overlap_free in Hfree.
  apply andb_prop in Hfree as [Hfree H3]. apply andb_prop in Hfree as [H1 H2].
  rewrite forallb_forall in H1, H2, H3.
  induction 1 as [s Hno | a b b' Hleft Hb IH]; [done|].
  intros (x & y & E).
  apply app_eq_app_str in E as [(m & -> & E)|(m & -> & E)].
  - apply app_eq_app_str in E as [(m' & -> & ->)|(k & -> & E)].
    + apply IH. by exists m', y.
    + destruct (decide (k = "")) as [->|Hk].
      * rewrite app_empty_l in E. apply IH. exists "", y.
        by rewrite app_empty_l.
      * specialize (H3 k (suffixes_spec _ m k eq_refl)).
        rewrite is_empty_false in H3 by done. simpl in H3.
        apply negb_true_iff in H3.
        by rewrite (agree_spec old k y b') in H3.
  - symmetry in E. apply app_eq_app_str in E as [(k & Eold & E)|(m' & -> & _)].
    + destruct (decide (k = "")) as [->|Hk].
      * rewrite app_empty_r in Eold. subst m.
        specialize (Hleft x (old +:+ b)).
        rewrite length_app_str in Hleft. destruct old; [done|].
        simpl in Hleft. rewrite app_assoc_str in Hleft.
        specialize (Hleft eq_refl). lia.
      * apply app_eq_app_str in E as [(j & Ek & _)|(j & Enew & _)].
        -- specialize (H2 k (suffixes_spec _ m k Eold)).
           apply negb_true_iff in H2.
           by rewrite Ek, startswith_app in H2.
        -- specialize (H1 k (suffixes_spec _ m k Eold)).
           rewrite is_empty_false in H1 by done. simpl in H1.
           apply negb_true_iff in H1.
           by rewrite Enew, startswith_app in H1.
    + specialize (Hleft x (m' +:+ old +:+ b)).
      rewrite !length_app_str in Hleft. destruct old; [done|].
      simpl in Hleft. rewrite !app_assoc_str in Hleft.
      specialize (Hleft eq_refl). lia.
Qed.

Lemma replace_clean s old new :
  old ≠ "" → overlap_free old new = true → ¬ occurs old (replace s old new).
Proof.
  intros Hold Hfree. apply (Replaced_clean old new s); [done..|].
  by apply replace_Replaced.
Qed.

(** ** Dictionaries *)

Lemma dict_set_new_keys {V} k (v : V) (d : dict V) :
  k ∉ d.*1 → (dict_set k v d).*1 = d.*1 ++ [k].
Proof.
  induction d as [|[k' v'] d IH]; intros Hk; [done|]. csimpl in *.
  apply not_elem_of_cons in Hk as [Hne Hk].
  destruct (decide (k = k')); [done|]. csimpl. by rewrite IH.
Qed.

Lemma dict_set_old_keys {V} k (v : V) (d : dict V) :
  k ∈ d.*1 → (dict_set k v d).*1 = d.*1.
Proof.
  induction d as [|[k' v'] d IH]; intros Hk; csimpl in *.
  - by apply elem_of_nil in Hk.
  - destruct (decide (k = k')); [done|]. csimpl. f_equal. apply IH.
    apply elem_of_cons in Hk as [?|?]; done.
Qed.

Lemma dict_get_set {V} k (v : V) (d : dict V) :
  dict_get k (dict_set k v d) = Some v.
Proof.
  induction d as [|[k' v'] d IH]; simpl.
  - by rewrite decide_True.
  - destruct (decide (k = k')) as [->|Hne]; simpl.
    + by rewrite decide_True.
    + by rewrite decide_False.
Qed.

(** ** The answer generator *)

Section answer_generator.
Context `{Externals}.

Lemma answer_field_ok transcript acc kv w acc' w' :
  answer_field transcript acc kv w = (Ok acc', w') →
  ∃ qa answer,
    reads kv.2 qa ∧
    acc' = dict_set kv.1 answer acc ∧
    trace w' = trace w ++ turn transcript qa ∧
    fs w' = fs w ∧ drawn w' = drawn w.
Proof.
  unfold answer_field, mbind, prog_bind, bind, lift, emit, chain_invoke,
    mret, prog_ret, ret.
  destruct (subscript kv.2 "question") as [q|e] eqn:Hq; [|done].
  destruct (subscript kv.2 "ans_template") as [a|e] eqn:Ha; [|done].
  simpl.
  destruct (invoke (llm w) transcript q a) as [b [answer|e]] eqn:Hi; [|done].
  intros [= <- <-]. exists (q, a), answer. simpl.
  by rewrite <- app_assoc.
Qed.

Lemma answer_fields_ok transcript its : ∀ acc w result w',
  answer_fields transcript acc its w = (Ok result, w') →
  NoDup (acc.*1 ++ its.*1) →
  result.*1 = acc.*1 ++ its.*1 ∧
  ∃ calls,
    Forall2 (λ kv qa, reads kv.2 qa) its calls ∧
    trace w' = trace w ++ concat (turn transcript <$> calls) ∧
    fs w' = fs w ∧ drawn w' = drawn w.
Proof.
  induction its as [|kv its IH]; intros acc w result w' Hrun Hnd.
  - injection Hrun as <- <-. simpl. rewrite !app_nil_r.
    split; [done|]. exists []. by rewrite app_nil_r.
  - simpl in Hrun. unfold mbind, prog_bind, bind in Hrun.
    destruct (answer_field transcript acc kv w) as [[acc1|e] w1] eqn:H1;
      [|done].
    apply answer_field_ok in H1 as (qa & answer & Hreads & -> & Htr & Hfs & Hdr).
    assert (kv.1 ∉ acc.*1) as Hfresh.
    { simpl in Hnd. apply NoDup_app in Hnd as (_ & Hdisj & _).
      intros Hin. apply (Hdisj _ Hin). simpl. left. }
    apply IH in Hrun as (Hkeys & calls & Hcalls & Htr' & Hfs' & Hdr').
    + rewrite dict_set_new_keys in Hkeys by done.
      split; [by rewrite Hkeys, <- app_assoc |].
      exists (qa :: calls). split; [by constructor|].
      rewrite Htr', Htr, Hfs', Hfs, Hdr', Hdr. simpl.
      by rewrite <- !app_assoc.
    + rewrite dict_set_new_keys by done.
      by rewrite <- app_assoc.
Qed.

Lemma answer_fields_total transcript its : ∀ acc w,
  never_raises →
  Forall (λ kv, ∃ qa, reads kv.2 qa) its →
  ∃ result w', answer_fields transcript acc its w = (Ok result, w').
Proof.
  induction its as [|kv its IH]; intros acc w Hb Hwf.
  - by eexists _, _.
  - apply Forall_cons in Hwf as [[[q a] [Hq Ha]] Hwf]. simpl in Hq, Ha.
    simpl. unfold mbind, prog_bind, bind at 1.
    unfold answer_field, mbind, prog_bind, bind, lift, emit, chain_invoke,
      mret, prog_ret, ret.
    rewrite Hq, Ha. simpl.
    destruct (Hb (llm w) transcript q a) as [answer Hans].
    destruct (invoke (llm w) transcript q a) as [b r]. simpl in Hans.
    subst r. apply IH; done.
Qed.

End answer_generator.

(** C1. For a question set [Q] with pairwise distinct keys, whenever
    [get_answer] returns, the answer set has the keys of [Q] in the order
    of [Q], one entry per key, and the loop ran one turn (one progress
    line, one call of the backend) per key, in that order.  It does return
    when every entry has its two members and the backend raises nothing. *)
Theorem get_answer_one_answer_per_key `{Externals}
    (transcript : string) (Q : dict pyval) (w : world) :
  dict_wf Q →
  (∀ result w',
     get_answer transcript (PDict Q) w = (Ok result, w') →
     result.*1 = Q.*1 ∧ dict_wf result ∧ length result = length Q ∧
     ∃ calls,
       Forall2 (λ kv qa, reads kv.2 qa) Q calls ∧
       trace w' = trace w ++ concat (turn transcript <$> calls)) ∧
  (never_raises → Forall (λ kv, ∃ qa, reads kv.2 qa) Q →
   ∃ result w', get_answer transcript (PDict Q) w = (Ok result, w')).
Proof.
  intros Hwf. split.
  - intros result w' Hrun.
    apply answer_fields_ok in Hrun as (Hkeys & calls & Hcalls & Htr & _);
      [|done].
    simpl in Hkeys. split; [done|]. split; [by unfold dict_wf; rewrite Hkeys|].
    split; [|by exists calls].
    by rewrite <- (length_fmap fst result), Hkeys, length_fmap.
  - intros Hb Hentries. by apply answer_fields_total.
Qed.

Lemma get_answer_one_answer_per_key_witness :
  dict_wf questions_date ∧
  ∃ result w',
    @get_answer stub "The call took place on 03.04.2024." (PDict questions_date)
      (world_date yaml_date) = (Ok result, w') ∧
    result.*1 = ["date"].
Proof.
  assert (dict_wf questions_date) as Hwf by (apply NoDup_singleton).
  split; [done|].
  destruct (@get_answer_one_answer_per_key stub
              "The call took place on 03.04.2024." questions_date
              (world_date yaml_date) Hwf) as [Hkeys Hruns].
  destruct Hruns as (result & w' & Hrun).
  - intros b t q a. by exists "03.04.2024".
  - repeat constructor.
    by exists (PStr "When did the call occur?", PStr "DD.MM.YYYY").
  - exists result, w'. split; [done|]. by apply Hkeys in Hrun as [-> _].
Defined.

(** ** Output paths *)

Lemma app_last_char a b c d : a +:+ String c "" = b +:+ String d "" → c = d.
Proof.
  revert b. induction a as [|x a IH]; intros [|y b] E.
  - rewrite !app_empty_l in E. by injection E.
  - rewrite app_empty_l, app_cons in E. injection E as _ E.
    apply (f_equal String.length) in E. rewrite length_app_str in E.
    simpl in E. lia.
  - rewrite app_empty_l, app_cons in E. injection E as _ E.
    apply (f_equal String.length) in E. rewrite length_app_str in E.
    simpl in E. lia.
  - rewrite !app_cons in E. injection E as _ E. by apply IH in E.
Qed.

Section paths.
Context `{Externals}.

Lemma paths_shape :
  ∃ prefix, ∀ w,
    path_to_file w = prefix +:+ "summary" +:+ uuid4 (drawn w) +:+ ".md" ∧
    path_to_pdf w = prefix +:+ "summary" +:+ uuid4 (drawn w) +:+ ".pdf".
Proof.
  assert (∃ prefix, ∀ name, join PATH_TO_DIR ("summary" +:+ name)
                            = prefix +:+ "summary" +:+ name) as [prefix Hj].
  { assert (∀ name, startswith "/" ("summary" +:+ name) = false) as Hrel
      by done.
    unfold join. destruct (decide (PATH_TO_DIR = "")).
    - exists "". intros name. by rewrite Hrel.
    - destruct (ends_with_slash PATH_TO_DIR).
      + exists PATH_TO_DIR. intros name. by rewrite Hrel.
      + exists (PATH_TO_DIR +:+ "/"). intros name.
        by rewrite Hrel, app_assoc_str. }
  exists prefix. intros w. unfold path_to_pdf, path_to_file, file_name_of.
  rewrite Hj. split; [done|].
  replace (prefix +:+ "summary" +:+ uuid4 (drawn w) +:+ ".md")
    with ((prefix +:+ "summary" +:+ uuid4 (drawn w) +:+ ".") +:+ "md").
  - rewrite (drop_last_app _ "md"). by rewrite !app_assoc_str.
  - by rewrite !app_assoc_str.
Qed.

Lemma path_to_file_ne_pdf w1 w2 : path_to_file w1 ≠ path_to_pdf w2.
Proof.
  destruct paths_shape as [prefix Hp].
  destruct (Hp w1) as [-> _], (Hp w2) as [_ ->]. intros E.
  apply (inj (String.app prefix)) in E.
  apply (inj (String.app "summary")) in E.
  change ".md" with (".m" +:+ "d") in E.
  change ".pdf" with (".pd" +:+ "f") in E.
  rewrite <- !app_assoc_str in E. by apply app_last_char in E.
Qed.

Lemma path_to_file_inj w1 w2 :
  path_to_file w1 = path_to_file w2 → uuid4 (drawn w1) = uuid4 (drawn w2).
Proof.
  destruct paths_shape as [prefix Hp].
  destruct (Hp w1) as [-> _], (Hp w2) as [-> _]. intros E.
  apply (inj (String.app prefix)) in E.
  apply (inj (String.app "summary")) in E.
  by apply app_inv_tail_str in E.
Qed.

Lemma path_to_pdf_inj w1 w2 :
  path_to_pdf w1 = path_to_pdf w2 → uuid4 (drawn w1) = uuid4 (drawn w2).
Proof.
  destruct paths_shape as [prefix Hp].
  destruct (Hp w1) as [_ ->], (Hp w2) as [_ ->]. intros E.
  apply (inj (String.app prefix)) in E.
  apply (inj (String.app "summary")) in E.
  by apply app_inv_tail_str in E.
Qed.

End paths.

(** ** The document assembler, statement by statement *)

Section assembler.
Context `{Externals}.

Ltac run_prog :=
  unfold get_summary_file, mbind, prog_bind, bind, draw_uuid4, copy,
    read_text, seek0_write, save, lift, emit, mret, prog_ret, ret;
  cbn [fs llm drawn trace].

Lemma get_summary_file_no_template path result make_pdf w :
  fs w !! path = None →
  get_summary_file path result make_pdf w =
    (Raise (FileNotFoundError path),
     World (fs w) (llm w) (S (drawn w)) (trace w)).
Proof. intros Hp. run_prog. by rewrite Hp. Qed.

Lemma get_summary_file_same_file path result make_pdf w bytes :
  fs w !! path = Some bytes → path = path_to_file w →
  get_summary_file path result make_pdf w =
    (Raise (SameFileError path path),
     World (fs w) (llm w) (S (drawn w)) (trace w)).
Proof.
  intros Hp Heq. run_prog. rewrite Hp.
  fold (path_to_file w). rewrite <- Heq. by rewrite decide_True.
Qed.

Lemma get_summary_file_run path result make_pdf w bytes :
  fs w !! path = Some bytes → path ≠ path_to_file w →
  get_summary_file path result make_pdf w =
    match assemble bytes result with
    | Raise e => (Raise e, copied w bytes)
    | Ok text =>
        if make_pdf then
          let w1 := World (fs (written w bytes text)) (llm w) (S (drawn w))
                          (trace w ++ [AddSection (the_section text)]) in
          match render (the_section text) with
          | Ok pdf =>
              (Ok tt, World (<[path_to_pdf w := pdf]> (fs w1)) (llm w1)
                            (drawn w1) (trace w1))
          | Raise e => (Raise e, w1)
          end
        else (Ok tt, written w bytes text)
    end.
Proof.
  intros Hp Hne. run_prog. rewrite Hp.
  fold (path_to_file w). rewrite decide_False by done.
  cbn [fs llm drawn trace]. rewrite lookup_insert_eq.
  unfold assemble, readlines.
  change (join "template" "img.svg") with LOGO.
  destruct (fill_logo _ LOGO) as [lines|e]; [|done].
  destruct (fill_fields lines result) as [lines'|e]; [|done].
  cbn [fs llm drawn trace]. rewrite lookup_insert_eq, insert_insert_eq.
  destruct make_pdf; [|done].
  cbn [fs llm drawn trace]. fold (path_to_pdf w).
  fold (the_section (join_lines lines')).
  by destruct (render _).
Qed.

End assembler.

(** ** [list.index] and the loop over the answers *)

Lemma index_ok lines x i :
  index lines x = Ok i ↔
  lines !! i = Some x ∧ ∀ j, j < i → lines !! j ≠ Some x.
Proof.
  revert i. induction lines as [|l ls IH]; intros i; simpl.
  - split; [done | by intros [? _]].
  - destruct (decide (l = x)) as [->|Hne].
    + split.
      * intros [= <-]. split; [done | intros j Hj; lia].
      * intros [Hi Hfirst]. destruct i as [|i]; [done|].
        by destruct (Hfirst 0); [lia|].
    + destruct (index ls x) as [k|e].
      * split.
        -- intros [= <-]. destruct (IH k) as [IHk _].
           destruct (IHk eq_refl) as [Hk Hfirst]. split; [done|].
           intros [|j] Hj; simpl; [congruence|]. apply Hfirst. lia.
        -- intros [Hi Hfirst]. destruct i as [|i]; simpl in Hi; [congruence|].
           destruct (IH i) as [_ IHi].
           assert (Ok k = Ok i) as [= ->]; [|done]. apply IHi.
           split; [done|]. intros j Hj. apply (Hfirst (S j)). lia.
      * split; [done|]. intros [Hi Hfirst].
        destruct i as [|i]; simpl in Hi; [congruence|].
        destruct (IH i) as [_ IHi]. discriminate IHi.
        split; [done|]. intros j Hj. apply (Hfirst (S j)). lia.
Qed.

Lemma index_raise lines x e :
  index lines x = Raise e ↔ e = ValueError x ∧ x ∉ lines.
Proof.
  induction lines as [|l ls IH]; simpl.
  - split.
    + intros [= <-]. split; [done | apply not_elem_of_nil].
    + by intros [-> _].
  - destruct (decide (l = x)) as [->|Hne].
    + split; [done|]. intros [_ Hn]. destruct Hn. left.
    + destruct (index ls x) as [k|e'].
      * split; [done|]. intros [-> Hn]. destruct IH as [_ IH].
        discriminate IH. split; [done|]. intros Hin. apply Hn. by right.
      * split.
        -- intros [= ->]. destruct IH as [IH _].
           destruct (IH eq_refl) as [-> Hn]. split; [done|].
           by apply not_elem_of_cons.
        -- intros [-> Hn]. destruct IH as [_ IH]. apply IH.
           split; [done|]. intros Hin. apply Hn. by right.
Qed.

Lemma fill_fields_app lines pre post :
  fill_fields lines (pre ++ post) =
    match fill_fields lines pre with
    | Ok lines' => fill_fields lines' post
    | Raise e => Raise e
    end.
Proof.
  revert lines. induction pre as [|fa pre IH]; intros lines; [done|].
  simpl. destruct (fill_field lines fa); [apply IH | done].
Qed.

Lemma fill_field_ok lines field ans lines' :
  fill_field lines (field, ans) = Ok lines' ↔
  ∃ i, lines !! i = Some (placeholder field) ∧
       (∀ j, j < i → lines !! j ≠ Some (placeholder field)) ∧
       lines' = <[i := ans]> lines.
Proof.
  unfold fill_field. simpl.
  destruct (index lines (placeholder field)) as [i|e] eqn:Hi.
  - apply index_ok in Hi as [Hi Hfirst]. split.
    + intros [= <-]. by exists i.
    + intros (k & Hk & Hkfirst & ->). f_equal. f_equal.
      destruct (Nat.lt_trichotomy i k) as [Hlt|[->|Hlt]]; [|done|].
      * by destruct (Hkfirst i Hlt).
      * by destruct (Hfirst k Hlt).
  - split; [done|]. intros (k & Hk & Hkfirst & _).
    assert (index lines (placeholder field) = Ok k) as Hc; [|congruence].
    by apply index_ok.
Qed.

Lemma fill_field_raise lines field ans e :
  fill_field lines (field, ans) = Raise e ↔
  e = ValueError (placeholder field) ∧ placeholder field ∉ lines.
Proof.
  unfold fill_field. simpl.
  destruct (index lines (placeholder field)) as [i|e'] eqn:Hi.
  - split; [done|]. intros Hr. apply index_raise in Hr. congruence.
  - rewrite <- index_raise, Hi. split; congruence.
Qed.

Lemma placeholder_inj f f' : placeholder f = placeholder f' → f = f'.
Proof.
  unfold placeholder. intros E.
  apply (inj (String.app ":::")) in E.
  by apply app_inv_tail_str in E.
Qed.

Lemma index_insert_stable lines i a x y :
  lines !! i = Some y → y ≠ x → a ≠ x →
  index (<[i := a]> lines) x = index lines x.
Proof.
  revert i. induction lines as [|l ls IH]; intros [|i] Hi Hy Ha;
    simpl in *; try done.
  - injection Hi as ->. by rewrite !decide_False.
  - destruct (decide (l = x)); [done|]. by rewrite (IH i).
Qed.

Lemma fill_fields_index_stable pre : ∀ lines before x,
  fill_fields lines pre = Ok before →
  (∀ f a, (f, a) ∈ pre → placeholder f ≠ x ∧ a ≠ x) →
  index before x = index lines x.
Proof.
  induction pre as [|[f a] pre IH]; intros lines before x Hrun Hother.
  - by injection Hrun as <-.
  - simpl in Hrun.
    destruct (fill_field lines (f, a)) as [mid|e] eqn:Hmid; [|done].
    apply fill_field_ok in Hmid as (i & Hi & _ & ->).
    destruct (Hother f a) as [Hf Ha]; [left|].
    rewrite (IH _ _ x Hrun).
    + by apply (index_insert_stable _ _ _ _ (placeholder f)).
    + intros f' a' Hin. apply Hother. by right.
Qed.

Lemma independent_earlier pre f a post f' a' :
  NoDup (pre ++ (f, a) :: post).*1 →
  (∀ g b, g ∈ (pre ++ (f, a) :: post).*1 → b ∈ (pre ++ (f, a) :: post).*2 →
          b ≠ placeholder g) →
  (f', a') ∈ pre →
  placeholder f' ≠ placeholder f ∧ a' ≠ placeholder f.
Proof.
  intros Hnd Hans Hin. split.
  - intros E%placeholder_inj. subst f'.
    rewrite fmap_app in Hnd. apply NoDup_app in Hnd as (_ & Hdis & _).
    apply (Hdis f).
    + apply (list_elem_of_fmap_2 fst pre (f, a')). done.
    + csimpl. left.
  - apply Hans; rewrite fmap_app, elem_of_app.
    + right. csimpl. left.
    + left. apply (list_elem_of_fmap_2 snd pre (f', a')). done.
Qed.

Lemma fill_fields_lookup_stable lines0 post : ∀ pre before final j,
  NoDup (pre ++ post).*1 →
  (∀ f a, f ∈ (pre ++ post).*1 → a ∈ (pre ++ post).*2 → a ≠ placeholder f) →
  fill_fields lines0 pre = Ok before →
  fill_fields before post = Ok final →
  (∀ f, f ∈ post.*1 → index lines0 (placeholder f) ≠ Ok j) →
  final !! j = before !! j.
Proof.
  induction post as [|[f a] post IH]; intros pre before final j Hnd Hans
    Hpre Hpost Hj.
  - by injection Hpost as <-.
  - simpl in Hpost.
    destruct (fill_field before (f, a)) as [mid|e] eqn:Hmid; [|done].
    pose proof Hmid as Hstep.
    apply fill_field_ok in Hmid as (i & Hi & Hfirst & ->).
    assert (index lines0 (placeholder f) = Ok i) as Hidx.
    { rewrite <- (fill_fields_index_stable pre lines0 before); [|done|].
      - by apply index_ok.
      - intros f' a' Hin. by apply (independent_earlier pre f a post). }
    assert (i ≠ j) as Hij.
    { intros ->. apply (Hj f); [left | done]. }
    rewrite (IH (pre ++ [(f, a)]) (<[i:=a]> before) final j).
    + by apply list_lookup_insert_ne.
    + by rewrite <- app_assoc.
    + by rewrite <- app_assoc.
    + by rewrite fill_fields_app, Hpre; simpl; rewrite Hstep.
    + done.
    + intros f' Hin. apply Hj. by right.
Qed.

Lemma fill_fields_end_to_end lines0 result final :
  NoDup result.*1 →
  (∀ f a, f ∈ result.*1 → a ∈ result.*2 → a ≠ placeholder f) →
  fill_fields lines0 result = Ok final →
  (∀ field ans, (field, ans) ∈ result →
     ∃ i, index lines0 (placeholder field) = Ok i ∧ final !! i = Some ans) ∧
  (∀ j, (∀ field, field ∈ result.*1 →
           index lines0 (placeholder field) ≠ Ok j) →
        final !! j = lines0 !! j).
Proof.
  intros Hnd Hans Hrun. split.
  - intros field ans (pre & post & ->)%list_elem_of_split.
    rewrite fill_fields_app in Hrun.
    destruct (fill_fields lines0 pre) as [before|e] eqn:Hpre; [|done].
    simpl in Hrun.
    destruct (fill_field before (field, ans)) as [mid|e] eqn:Hmid; [|done].
    pose proof Hmid as Hstep.
    apply fill_field_ok in Hmid as (i & Hi & Hfirst & ->).
    assert (index lines0 (placeholder field) = Ok i) as Hidx.
    { rewrite <- (fill_fields_index_stable pre lines0 before); [|done|].
      - by apply index_ok.
      - intros f' a' Hin. by apply (independent_earlier pre field ans post). }
    exists i. split; [done|].
    rewrite (fill_fields_lookup_stable lines0 post (pre ++ [(field, ans)])
               (<[i:=ans]> before) final i).
    + apply list_lookup_insert_eq. by eapply lookup_lt_Some.
    + by rewrite <- app_assoc.
    + by rewrite <- app_assoc.
    + by rewrite fill_fields_app, Hpre; simpl; rewrite Hstep.
    + done.
    + intros f Hf Hidx'. apply index_ok in Hidx as [Hl _].
      apply index_ok in Hidx' as [Hl' _].
      assert (f = field) as -> by (apply placeholder_inj; congruence).
      rewrite fmap_app in Hnd. apply NoDup_app in Hnd as (_ & _ & Hnd).
      csimpl in Hnd. by apply NoDup_cons in Hnd as [Hnot _].
  - intros j Hj.
    by apply (fill_fields_lookup_stable lines0 result [] lines0 final j).
Qed.

Lemma fill_logo_elsewhere lines lines0 j :
  fill_logo lines LOGO = Ok lines0 → j ≠ 1 → lines0 !! j = lines !! j.
Proof.
  unfold fill_logo, getitem. destruct (lines !! 1); [|done].
  intros [= <-] Hj. by apply list_lookup_insert_ne.
Qed.

Lemma fill_logo_index lines lines0 x :
  fill_logo lines LOGO = Ok lines0 →
  lines !! 1 ≠ Some x → lines0 !! 1 ≠ Some x →
  index lines0 x = index lines x.
Proof.
  unfold fill_logo, getitem. destruct (lines !! 1) as [l1|] eqn:Hl1; [|done].
  intros [= <-] Hx Hx'.
  apply (index_insert_stable _ _ _ _ l1); [done | congruence |].
  intros E. apply Hx'. rewrite list_lookup_insert_eq; [by rewrite E|].
  by eapply lookup_lt_Some.
Qed.

Lemma index_present lines x : x ∈ lines → ∃ i, index lines x = Ok i.
Proof.
  intros Hin. destruct (index lines x) as [i|e] eqn:Hi; [by exists i|].
  apply index_raise in Hi as [_ Hnot]. by destruct Hnot.
Qed.

Lemma index_elem_of lines x i : index lines x = Ok i → x ∈ lines.
Proof. intros [Hi _]%index_ok. by eapply list_elem_of_lookup_2. Qed.

Lemma fill_fields_present lines0 pre :
  NoDup pre.*1 →
  (∀ f a, f ∈ pre.*1 → a ∈ pre.*2 → a ≠ placeholder f) →
  (∀ f, f ∈ pre.*1 → placeholder f ∈ lines0) →
  ∃ before, fill_fields lines0 pre = Ok before.
Proof.
  induction pre as [|[f a] pre IH] using rev_ind; intros Hnd Hans Hall.
  - by exists lines0.
  - destruct IH as [before Hpre].
    + rewrite fmap_app in Hnd. by apply NoDup_app in Hnd as (? & _ & _).
    + intros g b Hg Hb. apply Hans; rewrite fmap_app, elem_of_app; by left.
    + intros g Hg. apply Hall. rewrite fmap_app, elem_of_app. by left.
    + destruct (index_present lines0 (placeholder f)) as [i Hi].
      { apply Hall. rewrite fmap_app, elem_of_app. right. csimpl. left. }
      exists (<[i := a]> before).
      rewrite fill_fields_app, Hpre. simpl. unfold fill_field. simpl.
      rewrite (fill_fields_index_stable pre lines0 before); [by rewrite Hi|done|].
      intros f' a' Hin. by apply (independent_earlier pre f a []).
Qed.

(** ** The document assembler: claims *)

(** C2. In a run of [get_summary_file] that completes, the loop over the
    answer set reaches every pair [(field, ans)] with the working copy's
    lines [before]; the first line equal to [":::<field>:::\n"] exists, at
    some index [i], and the pair's turn stores [ans] itself there (no
    escaping, no line terminator added) and leaves every other line, and
    the number of lines, as they were: the text is the lines before it,
    [ans], and the lines after it.  When the substitutions are independent
    (no answer and not the image line is a placeholder line), that line is
    the first such line of the template's copy as it was read, it holds
    [ans] in the final document, and the lines that are no field's first
    placeholder line are those of the copy, the second one with its image
    path. *)
Theorem get_summary_file_fills_first_placeholder `{Externals}
    (path : string) (result : dict string) (make_pdf : bool)
    (w w' : world) (bytes : string) :
  fs w !! path = Some bytes →
  get_summary_file path result make_pdf w = (Ok tt, w') →
  ∃ lines0 final,
    fill_logo (readlines bytes) LOGO = Ok lines0 ∧
    fill_fields lines0 result = Ok final ∧
    fs w' !! path_to_file w = Some (overwrite bytes (join_lines final)) ∧
    (∀ pre field ans post,
       result = pre ++ (field, ans) :: post →
       ∃ before i,
         fill_fields lines0 pre = Ok before ∧
         before !! i = Some (placeholder field) ∧
         (∀ j, j < i → before !! j ≠ Some (placeholder field)) ∧
         fill_fields lines0 (pre ++ [(field, ans)])
           = Ok (<[i := ans]> before) ∧
         <[i := ans]> before !! i = Some ans ∧
         (∀ j, j ≠ i → <[i := ans]> before !! j = before !! j) ∧
         length (<[i := ans]> before) = length before ∧
         join_lines (<[i := ans]> before)
         = join_lines (take i before) +:+ ans +:+
           join_lines (drop (S i) before)) ∧
    (dict_wf result →
     independent (readlines bytes) lines0 result →
     (∀ field ans,
        (field, ans) ∈ result →
        ∃ i, index (readlines bytes) (placeholder field) = Ok i ∧
             final !! i = Some ans) ∧
     (∀ j, j ≠ 1 →
           (∀ field, field ∈ result.*1 →
              index (readlines bytes) (placeholder field) ≠ Ok j) →
           final !! j = readlines bytes !! j) ∧
     final !! 1 = lines0 !! 1).
Proof.
  intros Hp Hrun.
  destruct (decide (path = path_to_file w)) as [Heq|Hne].
  { by rewrite (get_summary_file_same_file _ _ _ _ bytes) in Hrun. }
  rewrite (get_summary_file_run _ _ _ _ bytes) in Hrun by done.
  unfold assemble in Hrun.
  destruct (fill_logo (readlines bytes) LOGO) as [lines0|e] eqn:Hlogo;
    [|done].
  destruct (fill_fields lines0 result) as [final|e] eqn:Hfill; [|done].
  exists lines0, final. split; [done|]. split; [done|]. split; [|split].
  - destruct make_pdf.
    + cbn zeta in Hrun. destruct (render _); [|done].
      injection Hrun as <-. cbn [fs written].
      rewrite lookup_insert_ne by (symmetry; apply path_to_file_ne_pdf).
      apply lookup_insert_eq.
    + injection Hrun as <-. apply lookup_insert_eq.
  - intros pre field ans post ->.
    rewrite fill_fields_app in Hfill.
    destruct (fill_fields lines0 pre) as [before|e] eqn:Hpre; [|done].
    simpl in Hfill.
    destruct (fill_field before (field, ans)) as [mid|e] eqn:Hmid; [|done].
    apply fill_field_ok in Hmid as (i & Hi & Hfirst & ->).
    exists before, i. split; [done|]. split; [done|]. split; [done|].
    assert (i < length before) as Hlen by by eapply lookup_lt_Some.
    split_and!.
    + rewrite fill_fields_app, Hpre. simpl.
      enough (fill_field before (field, ans) = Ok (<[i:=ans]> before)) as ->
        by done.
      apply fill_field_ok. by exists i.
    + by apply list_lookup_insert_eq.
    + intros j Hj. by apply list_lookup_insert_ne.
    + apply length_insert.
    + by apply join_lines_insert.
  - intros Hwf Hind.
    assert (∀ f a, f ∈ result.*1 → a ∈ result.*2 → a ≠ placeholder f)
      as Hans by (intros f a Hf Ha; by apply (Hind f Hf)).
    assert (∀ f, f ∈ result.*1 →
              index lines0 (placeholder f)
              = index (readlines bytes) (placeholder f)) as Hsame.
    { intros f Hf. destruct (Hind f Hf) as (_ & H1 & H1').
      by apply fill_logo_index. }
    destruct (fill_fields_end_to_end lines0 result final Hwf Hans Hfill)
      as [Hfields Hothers].
    split_and!.
    + intros field ans Hin. destruct (Hfields field ans Hin) as (i & Hi & Hv).
      exists i. split; [|done]. rewrite <- Hsame; [done|].
      by apply (list_elem_of_fmap_2 fst result (field, ans)).
    + intros j Hj Hnot. rewrite Hothers.
      * by apply (fill_logo_elsewhere (readlines bytes)).
      * intros field Hf. rewrite Hsame by done. by apply Hnot.
    + apply Hothers. intros field Hf Hidx.
      apply index_ok in Hidx as [Hl _]. by apply (Hind field Hf).
Qed.

Lemma get_summary_file_fills_first_placeholder_witness :
  fs (world_date yaml_date) !! "/app/template/template.md"
    = Some template_date ∧
  (∃ w', @get_summary_file stub "/app/template/template.md" answers_date true
           (world_date yaml_date) = (Ok tt, w')) ∧
  ∃ lines0 final i,
    fill_logo (readlines template_date) LOGO = Ok lines0 ∧
    fill_fields lines0 answers_date = Ok final ∧
    index (readlines template_date) (placeholder "date") = Ok i ∧
    final !! i = Some "03.04.2024".
Proof.
  assert (fs (world_date yaml_date) !! "/app/template/template.md"
          = Some template_date) as Hp by by vm_compute.
  set (w' := (@get_summary_file stub "/app/template/template.md" answers_date
                true (world_date yaml_date)).2).
  assert (@get_summary_file stub "/app/template/template.md" answers_date true
            (world_date yaml_date) = (Ok tt, w')) as Hrun by by vm_compute.
  split; [done|]. split; [by exists w'|].
  destruct (@get_summary_file_fills_first_placeholder stub _ _ _ _ _ _ Hp Hrun)
    as (lines0 & final & Hlogo & Hfill & _ & _ & Hend).
  destruct Hend as (Hfields & _).
  - apply NoDup_singleton.
  - intros f ->%list_elem_of_singleton.
    assert (lines0 = ["# Summary" +:+ nl; "![logo](template/img.svg)" +:+ nl;
                      ":::date:::" +:+ nl]) as ->
      by (vm_compute in Hlogo; by injection Hlogo).
    split_and!.
    + intros a ->%list_elem_of_singleton. by vm_compute.
    + by vm_compute.
    + by vm_compute.
  - destruct (Hfields "date" "03.04.2024") as (i & Hi & Hv); [left|].
    by exists lines0, final, i.
Defined.

(** C3, as the code has it.  When the loop reaches a pair whose
    placeholder is no line of the working copy, [get_summary_file] raises
    the [ValueError] of [list.index], which carries the placeholder
    literal; nothing was written back, so the output file is the copy of
    the template, byte for byte, and no section was rendered.  With
    independent substitutions this is the first field of the answer set
    whose placeholder is no line of the template. *)
Theorem get_summary_file_missing_placeholder `{Externals}
    (path : string) (result pre post : dict string) (field ans : string)
    (make_pdf : bool) (w : world) (bytes : string) (lines0 : list string) :
  fs w !! path = Some bytes →
  path ≠ path_to_file w →
  fill_logo (readlines bytes) LOGO = Ok lines0 →
  result = pre ++ (field, ans) :: post →
  (∀ before,
     fill_fields lines0 pre = Ok before →
     placeholder field ∉ before →
     get_summary_file path result make_pdf w =
       (Raise (ValueError (placeholder field)), copied w bytes)) ∧
  (dict_wf result →
   independent (readlines bytes) lines0 result →
   (∀ f, f ∈ pre.*1 → placeholder f ∈ readlines bytes) →
   placeholder field ∉ readlines bytes →
   get_summary_file path result make_pdf w =
     (Raise (ValueError (placeholder field)), copied w bytes)) ∧
  fs (copied w bytes) !! path_to_file w = Some bytes ∧
  (∀ p, p ≠ path_to_file w → fs (copied w bytes) !! p = fs w !! p) ∧
  trace (copied w bytes) = trace w.
Proof.
  intros Hp Hne Hlogo ->.
  assert (∀ before,
            fill_fields lines0 pre = Ok before →
            placeholder field ∉ before →
            get_summary_file path (pre ++ (field, ans) :: post) make_pdf w =
              (Raise (ValueError (placeholder field)), copied w bytes))
    as Hstep.
  { intros before Hpre Hmiss.
    rewrite (get_summary_file_run _ _ _ _ bytes) by done.
    unfold assemble. rewrite Hlogo, fill_fields_app, Hpre. simpl.
    assert (fill_field before (field, ans)
            = Raise (ValueError (placeholder field))) as ->; [|done].
    by apply fill_field_raise. }
  split_and!.
  - done.
  - intros Hwf Hind Hearlier Hmiss.
    assert (∀ f a, f ∈ (pre ++ (field, ans) :: post).*1 →
                   a ∈ (pre ++ (field, ans) :: post).*2 →
                   a ≠ placeholder f) as Hans
      by (intros f a Hf Ha; by apply (Hind f Hf)).
    assert (∀ f, f ∈ (pre ++ (field, ans) :: post).*1 →
              index lines0 (placeholder f)
              = index (readlines bytes) (placeholder f)) as Hsame.
    { intros f Hf. destruct (Hind f Hf) as (_ & H1 & H1').
      by apply fill_logo_index. }
    destruct (fill_fields_present lines0 pre) as [before Hpre].
    + unfold dict_wf in Hwf. rewrite fmap_app in Hwf.
      by apply NoDup_app in Hwf as (? & _ & _).
    + intros f a Hf Ha. apply Hans; rewrite fmap_app, elem_of_app; by left.
    + intros f Hf.
      destruct (index_present _ _ (Hearlier f Hf)) as [i Hi].
      apply (index_elem_of _ _ i). rewrite Hsame; [done|].
      rewrite fmap_app, elem_of_app. by left.
    + apply (Hstep before Hpre). intros Hin.
      destruct (index_present _ _ Hin) as [i Hi].
      rewrite (fill_fields_index_stable pre lines0 before) in Hi; [|done|].
      * rewrite Hsame in Hi.
        -- by apply index_elem_of in Hi.
        -- rewrite fmap_app, elem_of_app. right. csimpl. left.
      * intros f' a' Hin'. by apply (independent_earlier pre field ans post).
  - apply lookup_insert_eq.
  - intros p Hpne. by apply lookup_insert_ne.
  - done.
Qed.

Lemma get_summary_file_missing_placeholder_witness :
  (placeholder "owner" ∉ readlines template_date) ∧
  ∃ w',
    @get_summary_file stub "/app/template/template.md" answers_owner true
      (world_date yaml_date)
    = (Raise (ValueError (placeholder "owner")), w') ∧
    fs w' !! @path_to_file stub (world_date yaml_date) = Some template_date.
Proof.
  assert (placeholder "owner" ∉ readlines template_date) as Hmiss.
  { intros Hin. vm_compute in Hin.
    repeat (apply elem_of_cons in Hin as [Hin|Hin]; [discriminate|]).
    by apply elem_of_nil in Hin. }
  split; [done|].
  exists (@copied stub (world_date yaml_date) template_date).
  destruct (@get_summary_file_missing_placeholder stub
              "/app/template/template.md" answers_owner [] []
              "owner" "Ann" true (world_date yaml_date) template_date
              ["# Summary" +:+ nl; "![logo](template/img.svg)" +:+ nl;
               ":::date:::" +:+ nl])
    as (_ & Hrun & Hcopy & _).
  - by vm_compute.
  - vm_compute. discriminate.
  - by vm_compute.
  - done.
  - split; [|done]. apply Hrun.
    + apply NoDup_singleton.
    + intros f ->%list_elem_of_singleton. split_and!.
      * intros a ->%list_elem_of_singleton. by vm_compute.
      * by vm_compute.
      * by vm_compute.
    + intros f Hf. by apply elem_of_nil in Hf.
    + done.
Defined.

(** C3 as the specification words it fails: the missing placeholder of
    ["owner"] ends the run with a [ValueError], not with an exception of a
    class [PlaceholderNotFoundError]. *)
Lemma missing_placeholder_raises_ValueError :
  (∀ l, l ∈ readlines template_date → l ≠ placeholder "owner") ∧
  ∃ e w',
    @get_summary_file stub "/app/template/template.md" answers_owner true
      (world_date yaml_date) = (Raise e, w') ∧
    exn_class e = "ValueError" ∧
    exn_class e ≠ "PlaceholderNotFoundError".
Proof.
  split.
  - intros l Hin. vm_compute in Hin.
    repeat (apply elem_of_cons in Hin as [->|Hin]; [by vm_compute|]).
    by apply elem_of_nil in Hin.
  - exists (ValueError (placeholder "owner")),
      (@copied stub (world_date yaml_date) template_date).
    split; [by vm_compute|]. split; [done|]. by vm_compute.
Qed.

(** C10. A template of fewer than two lines: [lines[1]] raises
    [IndexError] whatever the answer set is, before the loop over it
    starts, and the output file stays the copy of the template. *)
Theorem get_summary_file_short_template `{Externals}
    (path : string) (result : dict string) (make_pdf : bool)
    (w : world) (bytes : string) :
  fs w !! path = Some bytes →
  path ≠ path_to_file w →
  length (readlines bytes) < 2 →
  get_summary_file path result make_pdf w = (Raise IndexError, copied w bytes) ∧
  fs (copied w bytes) !! path_to_file w = Some bytes ∧
  (∀ p, p ≠ path_to_file w → fs (copied w bytes) !! p = fs w !! p) ∧
  trace (copied w bytes) = trace w.
Proof.
  intros Hp Hne Hlen. split; [|split; [|split]].
  - rewrite (get_summary_file_run _ _ _ _ bytes) by done.
    unfold assemble, fill_logo, getitem.
    by rewrite (lookup_ge_None_2 (readlines bytes) 1) by lia.
  - apply lookup_insert_eq.
  - intros p Hpne. by apply lookup_insert_ne.
  - done.
Qed.

Lemma get_summary_file_short_template_witness :
  length (readlines template_short) < 2 ∧
  @get_summary_file stub "/app/template/template.md" answers_date true
    world_short
  = (Raise IndexError, @copied stub world_short template_short).
Proof.
  assert (length (readlines template_short) < 2) as Hlen
    by (vm_compute; lia).
  split; [done|].
  apply (@get_summary_file_short_template stub "/app/template/template.md"
           answers_date true world_short template_short).
  - by vm_compute.
  - vm_compute. discriminate.
  - done.
Defined.

(** [seek(0)] and [write] without [truncate]: what a shorter text leaves. *)
Lemma overwrite_longer old text :
  String.length old ≤ String.length text → overwrite old text = text.
Proof.
  intros Hlen. unfold overwrite.
  by rewrite drop_str_all, app_empty_r.
Qed.

Lemma drop_str_length n s :
  String.length (drop_str n s) = String.length s - n.
Proof.
  revert n. induction s as [|c s IH]; intros [|n]; simpl; try done.
Qed.

Lemma overwrite_shorter old text :
  String.length text < String.length old → overwrite old text ≠ text.
Proof.
  intros Hlen E. apply (f_equal String.length) in E. unfold overwrite in E.
  rewrite length_app_str, drop_str_length in E. lia.
Qed.

(** In general: a completed run leaves the text over the copy, and a text
    shorter than the template does not fill the file. *)
Lemma get_summary_file_shorter_text `{Externals}
    (path : string) (result : dict string) (w w' : world)
    (bytes text : string) :
  fs w !! path = Some bytes →
  assemble bytes result = Ok text →
  get_summary_file path result false w = (Ok tt, w') →
  fs w' !! path_to_file w = Some (overwrite bytes text) ∧
  (String.length text < String.length bytes →
   fs w' !! path_to_file w ≠ Some text) ∧
  (String.length bytes ≤ String.length text →
   fs w' !! path_to_file w = Some text).
Proof.
  intros Hp Htext Hrun.
  destruct (decide (path = path_to_file w)) as [Heq|Hne].
  { by rewrite (get_summary_file_same_file _ _ _ _ bytes) in Hrun. }
  rewrite (get_summary_file_run _ _ _ _ bytes), Htext in Hrun by done.
  injection Hrun as <-. cbn [fs written]. rewrite lookup_insert_eq.
  split_and!; [done| |].
  - intros Hlen [= E]. by apply overwrite_shorter in E.
  - intros Hlen. by rewrite overwrite_longer.
Qed.

(** C4 fails on the code.  The text assembled for [template_date] and the
    answer ["03.04.2024"] is two bytes shorter than the template; the run
    completes and the output file holds that text followed by the last two
    bytes of the template's copy. *)
Theorem get_summary_file_keeps_stale_tail :
  let text := "# Summary" +:+ nl +:+ "![logo](template/img.svg)" +:+ nl +:+
              "03.04.2024" in
  assemble template_date answers_date = Ok text ∧
  ∃ w',
    @get_summary_file stub "/app/template/template.md" answers_date false
      (world_date yaml_date) = (Ok tt, w') ∧
    fs w' !! @path_to_file stub (world_date yaml_date)
      = Some (text +:+ ":" +:+ nl) ∧
    fs w' !! @path_to_file stub (world_date yaml_date) ≠ Some text.
Proof.
  intros text. split; [by vm_compute|].
  exists (@written stub (world_date yaml_date) template_date text).
  split; [by vm_compute|]. split; [by vm_compute|].
  vm_compute. discriminate.
Qed.

(** C7. The image path is put into the second line and nowhere else.  For
    a template of at least two lines [l0], [l1], ...: the step raises
    nothing and changes line 1 only, to [l1.replace(token, logo)] with the
    constant logo path ["template/img.svg"]; that is [l1] with every
    occurrence of the token replaced, left to right, and no token is left
    in it; when [l1] has no token the lines are what they were, so a token
    on another line stays; and the run goes on from these lines. *)
Theorem fill_logo_is_positional `{Externals}
    (path : string) (result : dict string) (w : world) (bytes : string)
    (l0 l1 : string) (rest : list string) :
  fs w !! path = Some bytes →
  path ≠ path_to_file w →
  readlines bytes = l0 :: l1 :: rest →
  let l1' := replace l1 ":::path_to_img:::" "template/img.svg" in
  join "template" "img.svg" = "template/img.svg" ∧
  fill_logo (readlines bytes) (join "template" "img.svg")
    = Ok (l0 :: l1' :: rest) ∧
  Replaced ":::path_to_img:::" "template/img.svg" l1 l1' ∧
  ¬ occurs ":::path_to_img:::" l1' ∧
  (¬ occurs ":::path_to_img:::" l1 → l0 :: l1' :: rest = readlines bytes) ∧
  (∀ final,
     fill_fields (l0 :: l1' :: rest) result = Ok final →
     get_summary_file path result false w
       = (Ok tt, written w bytes (join_lines final))).
Proof.
  intros Hp Hne Hlines l1'.
  assert (fill_logo (readlines bytes) LOGO = Ok (l0 :: l1' :: rest)) as Hlogo
    by by rewrite Hlines.
  split; [done|]. split; [done|]. split; [by apply replace_Replaced|].
  split; [by apply replace_clean|]. split.
  - intros Hno. unfold l1'. by rewrite replace_absent, Hlines.
  - intros final Hfinal.
    rewrite (get_summary_file_run _ _ _ _ bytes) by done.
    unfold assemble. by rewrite Hlogo, Hfinal.
Qed.

Lemma fill_logo_is_positional_witness :
  readlines template_misplaced
    = ["![logo](:::path_to_img:::)" +:+ nl; "# Summary" +:+ nl] ∧
  @get_summary_file stub "/app/template/template.md" [] false world_misplaced
    = (Ok tt, @written stub world_misplaced template_misplaced
                template_misplaced).
Proof.
  assert (readlines template_misplaced
          = ["![logo](:::path_to_img:::)" +:+ nl; "# Summary" +:+ nl])
    as Hlines by by vm_compute.
  split; [done|].
  destruct (@fill_logo_is_positional stub "/app/template/template.md" []
              world_misplaced template_misplaced
              ("![logo](:::path_to_img:::)" +:+ nl) ("# Summary" +:+ nl) [])
    as (_ & _ & _ & _ & _ & Hrun).
  - by vm_compute.
  - vm_compute. discriminate.
  - done.
  - rewrite (Hrun _ eq_refl). by vm_compute.
Defined.

(** ** Files a run touches *)

Section frame.
Context `{Externals}.

Lemma get_summary_file_others path result make_pdf w r w' :
  get_summary_file path result make_pdf w = (r, w') →
  drawn w' = S (drawn w) ∧
  (∀ p, p ≠ path_to_file w → p ≠ path_to_pdf w → fs w' !! p = fs w !! p) ∧
  (make_pdf = false → ∀ p, p ≠ path_to_file w → fs w' !! p = fs w !! p) ∧
  (path = path_to_file w → fs w' = fs w) ∧
  (fs w !! path = None → fs w' = fs w).
Proof.
  intros Hrun. destruct (fs w !! path) as [bytes|] eqn:Hp.
  2: { rewrite get_summary_file_no_template in Hrun by done.
       by injection Hrun as <- <-. }
  destruct (decide (path = path_to_file w)) as [Heq|Hne].
  { rewrite (get_summary_file_same_file _ _ _ _ bytes) in Hrun by done.
    by injection Hrun as <- <-. }
  rewrite (get_summary_file_run _ _ _ _ bytes) in Hrun by done.
  assert (∀ x p, p ≠ path_to_file w →
            (<[path_to_file w := x]> (fs w)) !! p = fs w !! p) as Hmd
    by (intros; by apply lookup_insert_ne).
  destruct (assemble bytes result) as [text|e].
  - destruct make_pdf.
    + cbn zeta in Hrun. destruct (render _) as [pdf|e];
        injection Hrun as <- <-; cbn [fs drawn written].
      * split_and!; try done.
        intros p Hp1 Hp2. rewrite lookup_insert_ne by done. by apply Hmd.
      * split_and!; try done. intros p Hp1 _. by apply Hmd.
    + injection Hrun as <- <-. cbn [fs drawn written].
      split_and!; try done; intros; by apply Hmd.
  - injection Hrun as <- <-. cbn [fs drawn copied].
    split_and!; try done; intros; by apply Hmd.
Qed.

End frame.

(** C9, as the code has it.  A run writes to the file named
    [summary<token>.md] in the program's directory and, when it renders,
    to the PDF of the same base name, and to no other path; the names
    being fresh (no file has the run's PDF name before the run), the
    template has the bytes it had; runs whose tokens differ write to
    different paths. *)
Theorem get_summary_file_writes_fresh_file_only `{Externals}
    (path : string) (result : dict string) (make_pdf : bool)
    (w w' : world) (r : outcome unit) :
  get_summary_file path result make_pdf w = (r, w') →
  fs w !! path_to_pdf w = None →
  path_to_file w
    = join PATH_TO_DIR ("summary" +:+ uuid4 (drawn w) +:+ ".md") ∧
  (∀ p, p ≠ path_to_file w → p ≠ path_to_pdf w → fs w' !! p = fs w !! p) ∧
  (make_pdf = false → ∀ p, p ≠ path_to_file w → fs w' !! p = fs w !! p) ∧
  fs w' !! path = fs w !! path ∧
  drawn w' = S (drawn w) ∧
  (∀ w2 : world,
     uuid4 (drawn w2) ≠ uuid4 (drawn w) →
     path_to_file w2 ≠ path_to_file w ∧ path_to_file w2 ≠ path_to_pdf w ∧
     path_to_pdf w2 ≠ path_to_file w ∧ path_to_pdf w2 ≠ path_to_pdf w).
Proof.
  intros Hrun Hfresh.
  destruct (get_summary_file_others _ _ _ _ _ _ Hrun)
    as (Hdrawn & Hothers & Hmd & Hsame & Hnone).
  split; [done|]. split; [done|]. split; [done|]. split; [|split; [done|]].
  - destruct (fs w !! path) as [bytes|] eqn:Hp.
    + destruct (decide (path = path_to_file w)) as [Heq|Hne].
      * by rewrite Hsame.
      * rewrite Hothers; [done..|]. intros ->. congruence.
    + by rewrite Hnone.
  - intros w2 Htok. repeat split.
    + intros E. by apply path_to_file_inj in E.
    + apply path_to_file_ne_pdf.
    + intros E. symmetry in E. by apply path_to_file_ne_pdf in E.
    + intros E. by apply path_to_pdf_inj in E.
Qed.

Lemma get_summary_file_writes_fresh_file_only_witness :
  ∃ w',
    @get_summary_file stub "/app/template/template.md" answers_date true
      (world_date yaml_date) = (Ok tt, w') ∧
    fs w' !! "/app/template/template.md" = Some template_date ∧
    @path_to_file stub w' ≠ @path_to_file stub (world_date yaml_date).
Proof.
  set (w := world_date yaml_date).
  set (w' := (@get_summary_file stub "/app/template/template.md" answers_date
                true w).2).
  assert (@get_summary_file stub "/app/template/template.md" answers_date true
            w = (Ok tt, w')) as Hrun by by vm_compute.
  exists w'. split; [done|].
  destruct (@get_summary_file_writes_fresh_file_only stub _ _ _ _ _ _ Hrun)
    as (_ & _ & _ & Htemplate & _ & Hpaths).
  - by vm_compute.
  - split; [rewrite Htemplate; by vm_compute|].
    apply Hpaths. vm_compute. discriminate.
Defined.

(** ** The renderer *)

(** C8, as the code has it.  With [make_pdf] set and the text assembled,
    the engine gets one section: the text, [toc=False], the program's
    directory as root and [borders=(10, 10, -10, -10)]; the PDF goes to
    the markdown file's path with [".md"] replaced by [".pdf"].  Without
    [make_pdf] no section is rendered and no PDF is written. *)
Theorem get_summary_file_renders `{Externals}
    (path : string) (result : dict string) (w : world)
    (bytes text : string) :
  fs w !! path = Some bytes →
  path ≠ path_to_file w →
  assemble bytes result = Ok text →
  let s := PdfSection text false PATH_TO_DIR (10, 10, -10, -10)%Z in
  (∃ stem, path_to_file w = stem +:+ ".md" ∧
           path_to_pdf w = stem +:+ ".pdf") ∧
  (∀ r w',
     get_summary_file path result true w = (r, w') →
     trace w' = trace w ++ [AddSection s] ∧
     match render s with
     | Ok pdf => r = Ok tt ∧ fs w' !! path_to_pdf w = Some pdf
     | Raise e => r = Raise e ∧ fs w' !! path_to_pdf w = fs w !! path_to_pdf w
     end) ∧
  (∀ r w',
     get_summary_file path result false w = (r, w') →
     r = Ok tt ∧ trace w' = trace w ∧
     fs w' !! path_to_pdf w = fs w !! path_to_pdf w).
Proof.
  intros Hp Hne Htext s.
  assert (path_to_pdf w ≠ path_to_file w) as Hpdf
    by (intros E; symmetry in E; by apply path_to_file_ne_pdf in E).
  split; [|split].
  - destruct paths_shape as [prefix Hshape].
    destruct (Hshape w) as [Hmd Hpdf'].
    exists (prefix +:+ "summary" +:+ uuid4 (drawn w)).
    by rewrite !app_assoc_str.
  - intros r w' Hrun.
    rewrite (get_summary_file_run _ _ _ _ bytes), Htext in Hrun by done.
    cbn zeta in Hrun. fold s in Hrun. unfold the_section in Hrun. fold s in Hrun.
    destruct (render s) as [pdf|e]; injection Hrun as <- <-;
      cbn [fs trace written].
    + split; [done|]. split; [done|]. apply lookup_insert_eq.
    + split; [done|]. split; [done|]. by apply lookup_insert_ne.
  - intros r w' Hrun.
    rewrite (get_summary_file_run _ _ _ _ bytes), Htext in Hrun by done.
    injection Hrun as <- <-. cbn [fs trace written].
    split; [done|]. split; [done|]. by apply lookup_insert_ne.
Qed.

Lemma get_summary_file_renders_witness :
  ∃ w' text,
    assemble template_date answers_date = Ok text ∧
    @get_summary_file stub "/app/template/template.md" answers_date true
      (world_date yaml_date) = (Ok tt, w') ∧
    trace w' = [AddSection (PdfSection text false "/app" (10, 10, -10, -10)%Z)].
Proof.
  set (w := world_date yaml_date).
  set (text := "# Summary" +:+ nl +:+ "![logo](template/img.svg)" +:+ nl +:+
               "03.04.2024").
  set (w' := (@get_summary_file stub "/app/template/template.md" answers_date
                true w).2).
  assert (@get_summary_file stub "/app/template/template.md" answers_date true
            w = (Ok tt, w')) as Hrun by by vm_compute.
  exists w', text.
  destruct (@get_summary_file_renders stub "/app/template/template.md"
              answers_date w template_date text) as (_ & Hpdf & _).
  - by vm_compute.
  - vm_compute. discriminate.
  - by vm_compute.
  - split; [by vm_compute|]. split; [done|].
    by destruct (Hpdf _ _ Hrun) as [-> _].
Defined.

(** C8 as the specification words it fails: the section of a rendering
    run carries the borders [(10, 10, -10, -10)], two of them negative;
    however the four are named, they are not top 10, left 10, right 10 and
    bottom -10. *)
Lemma rendered_borders_have_two_negative :
  ∃ w' s,
    @get_summary_file stub "/app/template/template.md" answers_date true
      (world_date yaml_date) = (Ok tt, w') ∧
    trace w' = [AddSection s] ∧
    sec_borders s = (10, 10, -10, -10)%Z ∧
    ∀ top left right bottom : Z,
      [top; left; right; bottom] ≡ₚ [10; 10; -10; -10]%Z →
      ¬ (top = 10 ∧ left = 10 ∧ right = 10 ∧ bottom = -10)%Z.
Proof.
  set (w' := (@get_summary_file stub "/app/template/template.md" answers_date
                true (world_date yaml_date)).2).
  exists w', (PdfSection
                ("# Summary" +:+ nl +:+ "![logo](template/img.svg)" +:+ nl +:+
                 "03.04.2024") false "/app" (10, 10, -10, -10)%Z).
  split; [by vm_compute|]. split; [by vm_compute|]. split; [done|].
  intros top left right bottom Hperm (-> & -> & -> & ->).
  apply (filter_Permutation (λ z, z = (-10)%Z)) in Hperm.
  apply Permutation_length in Hperm. vm_compute in Hperm. discriminate.
Qed.

(** ** The loader and the pipeline *)

Section pipeline.
Context `{Externals}.

Lemma answer_field_frame transcript acc kv w r w' :
  answer_field transcript acc kv w = (r, w') →
  fs w' = fs w ∧ drawn w' = drawn w ∧
  ∃ evs, trace w' = trace w ++ evs ∧ Forall loop_event evs.
Proof.
  unfold answer_field, mbind, prog_bind, bind, lift, emit, chain_invoke,
    mret, prog_ret, ret.
  destruct (subscript kv.2 "question") as [q|e].
  2: { intros [= <- <-]. split_and!; try done. exists [].
       by rewrite app_nil_r. }
  destruct (subscript kv.2 "ans_template") as [a|e].
  2: { intros [= <- <-]. split_and!; try done. exists [].
       by rewrite app_nil_r. }
  cbn [fs llm drawn trace].
  destruct (invoke (llm w) transcript q a) as [b [answer|e]];
    intros [= <- <-]; cbn [fs drawn trace]; split_and!; try done;
    exists [PrintQuestion q; Invoke transcript q a];
    (split; [by rewrite <- app_assoc | by repeat constructor]).
Qed.

Lemma answer_fields_frame transcript its : ∀ acc w r w',
  answer_fields transcript acc its w = (r, w') →
  fs w' = fs w ∧ drawn w' = drawn w ∧
  ∃ evs, trace w' = trace w ++ evs ∧ Forall loop_event evs.
Proof.
  induction its as [|kv its IH]; intros acc w r w' Hrun.
  - injection Hrun as <- <-. split_and!; try done. exists [].
    by rewrite app_nil_r.
  - simpl in Hrun. unfold mbind, prog_bind, bind in Hrun.
    destruct (answer_field transcript acc kv w) as [[acc1|e] w1] eqn:H1.
    + apply answer_field_frame in H1 as (Hfs1 & Hdr1 & evs1 & Htr1 & Hev1).
      apply IH in Hrun as (Hfs & Hdr & evs & Htr & Hev).
      split_and!; [congruence..|]. exists (evs1 ++ evs).
      split; [by rewrite Htr, Htr1, <- app_assoc | by apply Forall_app].
    + injection Hrun as <- <-. by apply answer_field_frame in H1.
Qed.

Lemma answer_fields_app transcript pre post : ∀ acc w,
  answer_fields transcript acc (pre ++ post) w =
    match answer_fields transcript acc pre w with
    | (Ok acc', w1) => answer_fields transcript acc' post w1
    | (Raise e, w1) => (Raise e, w1)
    end.
Proof.
  induction pre as [|kv pre IH]; intros acc w; [done|].
  simpl. unfold mbind, prog_bind, bind.
  destruct (answer_field transcript acc kv w) as [[acc1|e] w1]; [|done].
  apply IH.
Qed.

Lemma get_questions_run path w :
  get_questions path w =
    match fs w !! path with
    | None => (Raise (FileNotFoundError path), w)
    | Some bytes => (safe_load (universal_newlines bytes), w)
    end.
Proof.
  unfold get_questions, mbind, prog_bind, bind, read_text, lift, mret,
    prog_ret, ret.
  destruct (fs w !! path); [|done]. by destruct (safe_load _).
Qed.

Lemma get_transcript_run path w :
  get_transcript path w =
    match fs w !! path with
    | None => (Raise (FileNotFoundError path), w)
    | Some bytes => (Ok (universal_newlines bytes), w)
    end.
Proof.
  unfold get_transcript, mbind, prog_bind, bind, read_text, mret,
    prog_ret, ret.
  by destruct (fs w !! path).
Qed.

Lemma get_answer_bad_entry transcript pre k v post acc w w1 e :
  answer_fields transcript [] pre w = (Ok acc, w1) →
  (subscript v "question" = Raise e ∨
   ∃ q, subscript v "question" = Ok q ∧
        subscript v "ans_template" = Raise e) →
  get_answer transcript (PDict (pre ++ (k, v) :: post)) w = (Raise e, w1).
Proof.
  intros Hpre Hbad. unfold get_answer, mbind, prog_bind, bind, lift. simpl.
  rewrite answer_fields_app, Hpre. simpl.
  unfold mbind, prog_bind, bind, answer_field, mbind, prog_bind, bind, lift.
  simpl. destruct Hbad as [-> | (q & -> & ->)]; done.
Qed.

Lemma get_answer_backend_error transcript pre k v post acc w w1 q a b e :
  answer_fields transcript [] pre w = (Ok acc, w1) →
  reads v (q, a) →
  invoke (llm w1) transcript q a = (b, Raise e) →
  get_answer transcript (PDict (pre ++ (k, v) :: post)) w =
    (Raise e, World (fs w1) b (drawn w1)
                    (trace w1 ++ [PrintQuestion q; Invoke transcript q a])).
Proof.
  intros Hpre [Hq Ha] Hinv. simpl in Hq, Ha.
  unfold get_answer, mbind, prog_bind, bind, lift. simpl.
  rewrite answer_fields_app, Hpre. simpl.
  unfold mbind, prog_bind, bind, answer_field, mbind, prog_bind, bind, lift,
    emit, chain_invoke.
  simpl. rewrite Hq, Ha. simpl. rewrite Hinv. by rewrite <- app_assoc.
Qed.

End pipeline.

(** C5, as the code has it.  [get_questions] opens the file and returns
    what [safe_load] returns for its text: it fails only as [open] or the
    parser fail, and checks neither the shape of the value nor the members
    of the entries.  A value that is no mapping, or an entry without
    ["question"] or ["ans_template"], fails later, in [get_answer], with
    the exception of [.items()] or of the subscript. *)
Theorem get_questions_does_not_validate `{Externals}
    (path : string) (w : world) :
  get_questions path w =
    match fs w !! path with
    | None => (Raise (FileNotFoundError path), w)
    | Some bytes => (safe_load (universal_newlines bytes), w)
    end ∧
  (∀ transcript questions,
     (∀ d, questions ≠ PDict d) →
     get_answer transcript questions w = (Raise AttributeError, w)) ∧
  (∀ transcript pre k v post acc w1 e,
     answer_fields transcript [] pre w = (Ok acc, w1) →
     (subscript v "question" = Raise e ∨
      ∃ q, subscript v "question" = Ok q ∧
           subscript v "ans_template" = Raise e) →
     get_answer transcript (PDict (pre ++ (k, v) :: post)) w = (Raise e, w1)).
Proof.
  split; [apply get_questions_run|]. split.
  - intros transcript questions Hshape.
    destruct questions as [| | | | |d]; try done. by destruct (Hshape d).
  - intros. by eapply get_answer_bad_entry.
Qed.

Lemma get_questions_does_not_validate_witness :
  @get_answer stub "The call took place on 03.04.2024."
    (PDict questions_no_template) (world_date yaml_no_template)
  = (Raise (KeyError "ans_template"), world_date yaml_no_template).
Proof.
  destruct (@get_questions_does_not_validate stub
              "/app/template/questions.yaml" (world_date yaml_no_template))
    as (_ & _ & Hbad).
  apply (Hbad _ [] "date" _ [] [] _ (KeyError "ans_template")); [done|].
  right. by exists (PStr "When did the call occur?").
Defined.

(** C5 as the specification words it fails: the loader returns the
    question set whose entry has no ["ans_template"] without any error;
    the run fails afterwards, in [get_answer], with a [KeyError]. *)
Lemma get_questions_accepts_entry_without_template :
  @get_questions stub "/app/template/questions.yaml"
    (world_date yaml_no_template)
  = (Ok (PDict questions_no_template), world_date yaml_no_template) ∧
  (∀ a, ¬ reads (PDict [("question", PStr "When did the call occur?")])
            (PStr "When did the call occur?", a)) ∧
  ∃ e w',
    @main stub (world_date yaml_no_template) = (Raise e, w') ∧
    e = KeyError "ans_template" ∧
    exn_class e ≠ "SpecFormatError".
Proof.
  split; [by vm_compute|]. split.
  - intros a [_ Ha]. by vm_compute in Ha.
  - exists (KeyError "ans_template"), (world_date yaml_no_template).
    split; [by vm_compute|]. split; [done|]. by vm_compute.
Qed.

(** C6, as the code has it.  When the backend raises [e] on the question
    of key [k], [main] ends with [e] itself; no file is created or
    changed, no token is drawn, the trace holds nothing but the turns of
    the loop and ends with the call that failed: [get_summary_file] did
    not run and no later question was asked. *)
Theorem main_aborts_on_backend_error `{Externals}
    (w w1 : world) (tbytes qbytes : string) (pre post : dict pyval)
    (k : string) (v q a : pyval) (acc : dict string) (b : backend)
    (e : exn) :
  fs w !! join PATH_TO_DIR "transcript.md" = Some tbytes →
  fs w !! join3 PATH_TO_DIR "template" "questions.yaml" = Some qbytes →
  safe_load (universal_newlines qbytes) = Ok (PDict (pre ++ (k, v) :: post)) →
  answer_fields (universal_newlines tbytes) [] pre w = (Ok acc, w1) →
  reads v (q, a) →
  invoke (llm w1) (universal_newlines tbytes) q a = (b, Raise e) →
  ∃ w',
    main w = (Raise e, w') ∧
    fs w' = fs w ∧ drawn w' = drawn w ∧
    (∃ evs, trace w' = trace w ++ evs ∧ Forall loop_event evs) ∧
    trace w' = trace w1 ++ [PrintQuestion q;
                            Invoke (universal_newlines tbytes) q a].
Proof.
  intros Ht Hq Hload Hpre Hreads Hinv.
  pose proof (get_answer_backend_error _ _ k _ post _ _ _ _ _ _ _
                Hpre Hreads Hinv) as Hans.
  eexists. split.
  - unfold main. unfold mbind, prog_bind, bind at 1.
    rewrite get_transcript_run, Ht.
    unfold mbind, prog_bind, bind at 1.
    rewrite get_questions_run, Hq, Hload.
    unfold mbind, prog_bind, bind at 1.
    by rewrite Hans.
  - cbn [fs drawn trace].
    apply answer_fields_frame in Hpre as (Hfs & Hdr & evs & Htr & Hev).
    split_and!; try done.
    exists (evs ++ [PrintQuestion q; Invoke (universal_newlines tbytes) q a]).
    split; [by rewrite Htr, <- app_assoc|].
    apply Forall_app. split; [done | by repeat constructor].
Qed.

Lemma main_aborts_on_backend_error_witness :
  ∃ w',
    @main stub_down world_down
      = (Raise (Foreign "ConnectionError" "connection refused"), w') ∧
    fs w' = fs world_down ∧ drawn w' = 0.
Proof.
  destruct (@main_aborts_on_backend_error stub_down world_down world_down
              "The call took place on 03.04.2024 to discuss pricing."
              yaml_date [] [] "date"
              (PDict [("question", PStr "When did the call occur?");
                      ("ans_template", PStr "DD.MM.YYYY")])
              (PStr "When did the call occur?") (PStr "DD.MM.YYYY")
              [] tt (Foreign "ConnectionError" "connection refused"))
    as (w' & Hrun & Hfs & Hdr & _).
  - by vm_compute.
  - by vm_compute.
  - by vm_compute.
  - done.
  - by split.
  - done.
  - by exists w'.
Defined.

(** C6 as the specification words it fails: with a backend that refuses
    the connection the run ends with the backend's [ConnectionError]; it
    is not wrapped into an exception of a class [GenerationError]. *)
Lemma backend_error_is_not_wrapped :
  ∃ e w',
    @main stub_down world_down = (Raise e, w') ∧
    e = Foreign "ConnectionError" "connection refused" ∧
    exn_class e ≠ "GenerationError" ∧
    fs w' = fs world_down.
Proof.
  exists (Foreign "ConnectionError" "connection refused"),
    (@World stub_down (fs_date yaml_date) tt 0
       [PrintQuestion (PStr "When did the call occur?");
        Invoke "The call took place on 03.04.2024 to discuss pricing."
          (PStr "When did the call occur?") (PStr "DD.MM.YYYY")]).
  split; [by vm_compute|]. split; [done|]. split; [by vm_compute | done].
Qed.

(** C9 as the specification words it fails: a rendering run writes a
    second file, the PDF, besides [summary<token>.md]. *)
Lemma get_summary_file_also_writes_the_pdf :
  ∃ w',
    @get_summary_file stub "/app/template/template.md" answers_date true
      (world_date yaml_date) = (Ok tt, w') ∧
    @path_to_pdf stub (world_date yaml_date)
      = "/app/summary3f2b8c1e-5a7d-4e0b-9c6a-1d2e3f4a5b6c.pdf" ∧
    @path_to_pdf stub (world_date yaml_date)
      ≠ @path_to_file stub (world_date yaml_date) ∧
    fs (world_date yaml_date) !! @path_to_pdf stub (world_date yaml_date)
      = None ∧
    fs w' !! @path_to_pdf stub (world_date yaml_date)
      = Some ("%PDF-1.7 # Summary" +:+ nl +:+ "![logo](template/img.svg)" +:+
              nl +:+ "03.04.2024").
Proof.
  set (w' := (@get_summary_file stub "/app/template/template.md" answers_date
                true (world_date yaml_date)).2).
  exists w'. split; [by vm_compute|]. split; [by vm_compute|].
  split; [vm_compute; discriminate|]. split; [by vm_compute|].
  by vm_compute.
Qed.

(** * Further properties *)

(** ** Text read from files *)

Lemma occurs_char_cons c d r :
  occurs (String c "") (String d r) ↔ c = d ∨ occurs (String c "") r.
Proof.
  split.
  - intros ([|x a] & b & E).
    + rewrite app_empty_l, app_cons, app_empty_l in E. injection E as -> _.
      by left.
    + rewrite app_cons in E. injection E as _ ->. right. by exists a, b.
  - intros [->|Hr]; [|by apply occurs_cons].
    exists "", r. by rewrite app_empty_l, app_cons, app_empty_l.
Qed.



Lemma universal_newlines_id s : ¬ has_CR s → universal_newlines s = s.
Proof.
  unfold has_CR. induction s as [|c r IH]; intros Hno; [done|].
  cbn [universal_newlines]. destruct (decide (c = CR)) as [->|Hc].
  - destruct Hno. apply occurs_char_cons. by left.
  - f_equal. apply IH. intros Hr. apply Hno. apply occurs_char_cons. by right.
Qed.

Lemma split_lines_nil s : split_lines s = [] ↔ s = "".
Proof.
  split; [|by intros ->]. destruct s as [|c r]; [done|]. simpl.
  destruct (decide (c = LF)); [done|]. by destruct (split_lines r).
Qed.

Lemma split_lines_second s :
  2 ≤ length (split_lines s) ↔ has_second_line s.
Proof.
  unfold has_second_line. split.
  - induction s as [|c r IH]; simpl; [lia|].
    destruct (decide (c = LF)) as [->|Hc]; simpl.
    + intros Hlen. exists "", r. split; [done|].
      intros ->. simpl in Hlen. lia.
    + destruct (split_lines r) as [|l ls] eqn:Hr; simpl; [lia|].
      intros Hlen. destruct IH as (a & b & -> & Hb); [simpl; lia|].
      exists (String c a), b. by rewrite app_cons.
  - intros (a & b & -> & Hb). induction a as [|c a IH].
    + rewrite app_empty_l. unfold nl. rewrite app_cons, app_empty_l. simpl.
      destruct (split_lines b) eqn:Hsb; [|simpl; lia].
      by apply split_lines_nil in Hsb.
    + rewrite app_cons. simpl. destruct (decide (c = LF)); simpl.
      * lia.
      * destruct (split_lines (a +:+ nl +:+ b)); simpl in *; lia.
Qed.


(** ** Which templates the assembler accepts *)

Lemma fill_fields_raise lines result e :
  fill_fields lines result = Raise e →
  ∃ f, f ∈ result.*1 ∧ e = ValueError (placeholder f).
Proof.
  revert lines. induction result as [|[f a] result IH]; intros lines Hrun;
    [done|].
  simpl in Hrun. destruct (fill_field lines (f, a)) as [mid|e'] eqn:Hmid.
  - destruct (IH _ Hrun) as (g & Hg & ->). exists g. split; [|done].
    csimpl. by right.
  - injection Hrun as ->. apply fill_field_raise in Hmid as [-> _].
    exists f. split; [csimpl; left | done].
Qed.

Lemma fill_logo_raise lines e :
  fill_logo lines LOGO = Raise e ↔ e = IndexError ∧ length lines < 2.
Proof.
  unfold fill_logo, getitem. destruct (lines !! 1) as [l|] eqn:Hl.
  - split; [done|]. intros [_ Hlen]. apply lookup_lt_Some in Hl. lia.
  - apply lookup_ge_None in Hl. split.
    + intros [= <-]. split; [done | lia].
    + by intros [-> _].
Qed.

Lemma fill_logo_length lines lines0 :
  fill_logo lines LOGO = Ok lines0 →
  length lines0 = length lines ∧ 2 ≤ length lines.
Proof.
  unfold fill_logo, getitem. destruct (lines !! 1) as [l|] eqn:Hl; [|done].
  intros [= <-]. rewrite length_insert. split; [done|].
  apply lookup_lt_Some in Hl. lia.
Qed.

Lemma fill_fields_length result : ∀ lines final,
  fill_fields lines result = Ok final → length final = length lines.
Proof.
  induction result as [|[f a] result IH]; intros lines final Hrun.
  - by injection Hrun as <-.
  - simpl in Hrun. destruct (fill_field lines (f, a)) as [mid|e] eqn:Hmid;
      [|done].
    apply fill_field_ok in Hmid as (i & _ & _ & ->).
    rewrite (IH _ _ Hrun). apply length_insert.
Qed.

(** X2. The second line is missing exactly when the text of the template
    has no line break followed by more text: those are the templates on
    which [get_summary_file] stops with [IndexError] right after the copy,
    whatever the answers are and whether or not a PDF is asked for. *)
Theorem get_summary_file_IndexError_iff `{Externals}
    (path : string) (result : dict string) (make_pdf : bool)
    (w : world) (bytes : string) :
  fs w !! path = Some bytes →
  path ≠ path_to_file w →
  (get_summary_file path result make_pdf w = (Raise IndexError, copied w bytes)
   ↔ ¬ has_second_line (universal_newlines bytes)).
Proof.
  intros Hp Hne. rewrite (get_summary_file_run _ _ _ _ bytes) by done.
  rewrite <- split_lines_second. fold (readlines bytes).
  unfold assemble.
  destruct (fill_logo (readlines bytes) LOGO) as [lines0|e] eqn:Hlogo.
  - apply fill_logo_length in Hlogo as [_ Hlen]. split; [|lia].
    destruct (fill_fields lines0 result) as [final|e] eqn:Hfill.
    + destruct make_pdf; [|done]. cbn zeta.
      destruct (render _); [done|]. intros E.
      apply (f_equal (λ rw, length (trace rw.2))) in E. simpl in E.
      rewrite length_app in E. simpl in E. lia.
    + intros [= ->]. by apply fill_fields_raise in Hfill as (f & _ & ?).
  - apply fill_logo_raise in Hlogo as [-> Hlen]. split; [lia | done].
Qed.

Lemma get_summary_file_IndexError_iff_witness :
  ¬ has_second_line (universal_newlines template_short) ∧
  @get_summary_file stub "/app/template/template.md" answers_date true
    world_short
  = (Raise IndexError, @copied stub world_short template_short).
Proof.
  assert (@get_summary_file stub "/app/template/template.md" answers_date true
            world_short
          = (Raise IndexError, @copied stub world_short template_short))
    as Hrun by by vm_compute.
  split; [|done].
  apply (@get_summary_file_IndexError_iff stub "/app/template/template.md"
           answers_date true world_short template_short).
  - by vm_compute.
  - vm_compute. discriminate.
  - done.
Defined.

(** X3. A placeholder is matched with its line break.  When the text of
    the template does not end with a line break, its last line is no
    field's placeholder line, whatever it shows. *)
Theorem unterminated_last_line_is_no_placeholder
    (bytes : string) (init : list string) (last : string) :
  readlines bytes = init ++ [last] →
  ¬ ends_with_nl (universal_newlines bytes) →
  ∀ field, last ≠ placeholder field.
Proof.
  intros Hlines Hend field ->. apply Hend.
  exists (join_lines init +:+ ":::" +:+ field +:+ ":::").
  rewrite <- (join_split_lines (universal_newlines bytes)).
  fold (readlines bytes). rewrite Hlines, join_lines_app. simpl.
  unfold placeholder. by rewrite app_empty_r, !app_assoc_str.
Qed.

Lemma unterminated_last_line_is_no_placeholder_witness :
  readlines template_unterminated
    = ["# Summary" +:+ nl; "![logo](:::path_to_img:::)" +:+ nl]
      ++ [":::date:::"] ∧
  ":::date:::" ≠ placeholder "date".
Proof.
  assert (readlines template_unterminated
          = ["# Summary" +:+ nl; "![logo](:::path_to_img:::)" +:+ nl]
            ++ [":::date:::"]) as Hlines by by vm_compute.
  split; [done|].
  apply (unterminated_last_line_is_no_placeholder template_unterminated _ _
           Hlines).
  intros [a E].
  change (universal_newlines template_unterminated)
    with (("# Summary" +:+ nl +:+ "![logo](:::path_to_img:::)" +:+ nl +:+
           ":::date::") +:+ String ":" "") in E.
  apply app_last_char in E. discriminate.
Defined.

(** ** How the assembler fails and what it leaves *)



(** X5. Asking for the PDF changes nothing but the PDF: after a run with
    [make_pdf] and after one without, started in the same world, every
    path other than the run's PDF path holds the same, the markdown file
    included, whether the runs complete or fail. *)
Theorem make_pdf_changes_the_pdf_only `{Externals}
    (path : string) (result : dict string) (w : world) (p : string) :
  p ≠ path_to_pdf w →
  fs (get_summary_file path result true w).2 !! p
  = fs (get_summary_file path result false w).2 !! p.
Proof.
  intros Hpne. destruct (fs w !! path) as [bytes|] eqn:Hp.
  2: { by rewrite !get_summary_file_no_template by done. }
  destruct (decide (path = path_to_file w)) as [Heq|Hne].
  { by rewrite !(get_summary_file_same_file _ _ _ _ bytes) by done. }
  rewrite !(get_summary_file_run _ _ _ _ bytes) by done.
  destruct (assemble bytes result) as [text|e]; [|done]. cbn zeta.
  destruct (render (the_section text)) as [pdf|e]; [|done].
  cbn [snd fs written]. by rewrite lookup_insert_ne.
Qed.

Lemma make_pdf_changes_the_pdf_only_witness :
  fs (@get_summary_file stub "/app/template/template.md" answers_date true
        (world_date yaml_date)).2
    !! @path_to_file stub (world_date yaml_date)
  = fs (@get_summary_file stub "/app/template/template.md" answers_date false
          (world_date yaml_date)).2
      !! @path_to_file stub (world_date yaml_date).
Proof.
  apply (@make_pdf_changes_the_pdf_only stub).
  vm_compute. discriminate.
Defined.

(** X6. After a completed run the output file holds the text over the
    copy of the template: it is as long as the longer of the two, and it is
    the text itself exactly when the text is not shorter than the
    template's bytes. *)
Theorem output_file_is_text_iff `{Externals}
    (path : string) (result : dict string) (make_pdf : bool)
    (w w' : world) (bytes : string) :
  fs w !! path = Some bytes →
  get_summary_file path result make_pdf w = (Ok tt, w') →
  ∃ text,
    assemble bytes result = Ok text ∧
    fs w' !! path_to_file w = Some (overwrite bytes text) ∧
    String.length (overwrite bytes text)
      = String.length bytes `max` String.length text ∧
    (fs w' !! path_to_file w = Some text
     ↔ String.length bytes ≤ String.length text).
Proof.
  intros Hp Hrun.
  destruct (decide (path = path_to_file w)) as [Heq|Hne].
  { by rewrite (get_summary_file_same_file _ _ _ _ bytes) in Hrun. }
  rewrite (get_summary_file_run _ _ _ _ bytes) in Hrun by done.
  destruct (assemble bytes result) as [text|e]; [|done].
  exists text. split; [done|].
  assert (fs w' !! path_to_file w = Some (overwrite bytes text)) as Hfile.
  { destruct make_pdf.
    - cbn zeta in Hrun. destruct (render _); [|done].
      injection Hrun as <-. cbn [fs written].
      rewrite lookup_insert_ne by (symmetry; apply path_to_file_ne_pdf).
      apply lookup_insert_eq.
    - injection Hrun as <-. apply lookup_insert_eq. }
  split; [done|]. split.
  - unfold overwrite. rewrite length_app_str, drop_str_length. lia.
  - rewrite Hfile. split.
    + intros [= E].
      destruct (decide (String.length bytes ≤ String.length text)); [done|].
      apply overwrite_shorter in E; [done | lia].
    + intros Hlen. by rewrite overwrite_longer.
Qed.

Lemma output_file_is_text_iff_witness :
  ∃ w' text,
    @get_summary_file stub "/app/template/template.md" answers_date true
      (world_date yaml_date) = (Ok tt, w') ∧
    assemble template_date answers_date = Ok text ∧
    fs w' !! @path_to_file stub (world_date yaml_date)
      = Some (overwrite template_date text).
Proof.
  set (w' := (@get_summary_file stub "/app/template/template.md" answers_date
                true (world_date yaml_date)).2).
  assert (@get_summary_file stub "/app/template/template.md" answers_date true
            (world_date yaml_date) = (Ok tt, w')) as Hrun by by vm_compute.
  assert (fs (world_date yaml_date) !! "/app/template/template.md"
          = Some template_date) as Hp by by vm_compute.
  destruct (@output_file_is_text_iff stub _ _ _ _ _ _ Hp Hrun)
    as (text & Htext & Hfile & _).
  exists w', text. split; [exact Hrun|]. split; [exact Htext | exact Hfile].
Defined.

(** ** Templates that fit the answers *)

Lemma no_answer_is_a_placeholder_spec (result : dict string) :
  no_answer_is_a_placeholder result = true →
  ∀ f a, f ∈ result.*1 → a ∈ result.*2 → a ≠ placeholder f.
Proof.
  unfold no_answer_is_a_placeholder. rewrite forallb_forall.
  intros Hall f a Hf%list_elem_of_In Ha%list_elem_of_In E.
  specialize (Hall f Hf). rewrite forallb_forall in Hall.
  specialize (Hall a Ha). apply negb_true_iff in Hall.
  apply String.eqb_neq in Hall. done.
Qed.

Lemma first_line_of_a_field lines0 (result : dict string) j :
  (∃ f, f ∈ result.*1 ∧ index lines0 (placeholder f) = Ok j) ∨
  (∀ f, f ∈ result.*1 → index lines0 (placeholder f) ≠ Ok j).
Proof.
  induction result as [|[f a] result IH]; csimpl.
  - right. intros f Hf. by apply elem_of_nil in Hf.
  - destruct (decide (index lines0 (placeholder f) = Ok j)) as [Hj|Hj].
    + left. exists f. split; [left | done].
    + destruct IH as [(g & Hg & Hgj)|Hnone].
      * left. exists g. split; [by right | done].
      * right. intros g [->|Hg]%elem_of_cons; [done | by apply Hnone].
Qed.

Lemma fill_fields_needs_placeholders lines0 result final :
  NoDup result.*1 →
  (∀ f a, f ∈ result.*1 → a ∈ result.*2 → a ≠ placeholder f) →
  fill_fields lines0 result = Ok final →
  ∀ f, f ∈ result.*1 → placeholder f ∈ lines0.
Proof.
  intros Hnd Hans Hrun f Hf.
  apply list_elem_of_fmap in Hf as ([f' a] & -> & Hin).
  destruct (fill_fields_end_to_end _ _ _ Hnd Hans Hrun) as [Hfields _].
  destruct (Hfields f' a Hin) as (i & Hi & _). by apply index_elem_of in Hi.
Qed.

Lemma fill_fields_permutation lines0 result result' final :
  NoDup result.*1 →
  (∀ f a, f ∈ result.*1 → a ∈ result.*2 → a ≠ placeholder f) →
  result ≡ₚ result' →
  fill_fields lines0 result = Ok final →
  fill_fields lines0 result' = Ok final.
Proof.
  intros Hnd Hans Hperm Hrun.
  assert (NoDup result'.*1) as Hnd' by by rewrite <- Hperm.
  assert (∀ f a, f ∈ result'.*1 → a ∈ result'.*2 → a ≠ placeholder f)
    as Hans'.
  { intros f a Hf Ha. apply Hans; by rewrite Hperm. }
  destruct (fill_fields_present lines0 result' Hnd' Hans') as [final' Hrun'].
  { intros f Hf. apply (fill_fields_needs_placeholders _ _ _ Hnd Hans Hrun).
    by rewrite Hperm. }
  rewrite Hrun'. f_equal. apply list_eq. intros j.
  destruct (fill_fields_end_to_end _ _ _ Hnd Hans Hrun) as [Hf1 Ho1].
  destruct (fill_fields_end_to_end _ _ _ Hnd' Hans' Hrun') as [Hf2 Ho2].
  destruct (first_line_of_a_field lines0 result j) as [(f & Hf & Hj)|Hnone].
  - apply list_elem_of_fmap in Hf as ([f' a] & -> & Hin). simpl in Hj.
    destruct (Hf1 f' a Hin) as (i & Hi & Hv).
    destruct (Hf2 f' a) as (i' & Hi' & Hv'); [by rewrite <- Hperm|].
    assert (i = j) as -> by congruence.
    assert (i' = j) as -> by congruence.
    by rewrite Hv, Hv'.
  - rewrite Ho1 by done. rewrite Ho2; [done|].
    intros f Hf. apply Hnone. by rewrite Hperm.
Qed.

(** X7. The order of the answers does not matter when no answer is a
    placeholder line: a run that completes on an answer set completes on
    any reordering of it and leaves the same world. *)
Theorem answer_order_is_irrelevant `{Externals}
    (path : string) (result result' : dict string) (make_pdf : bool)
    (w w' : world) :
  dict_wf result →
  (∀ f a, f ∈ result.*1 → a ∈ result.*2 → a ≠ placeholder f) →
  result ≡ₚ result' →
  get_summary_file path result make_pdf w = (Ok tt, w') →
  get_summary_file path result' make_pdf w = (Ok tt, w').
Proof.
  intros Hwf Hans Hperm Hrun.
  destruct (fs w !! path) as [bytes|] eqn:Hp.
  2: { by rewrite get_summary_file_no_template in Hrun. }
  destruct (decide (path = path_to_file w)) as [Heq|Hne].
  { by rewrite (get_summary_file_same_file _ _ _ _ bytes) in Hrun. }
  rewrite (get_summary_file_run _ _ _ _ bytes) in Hrun by done.
  rewrite (get_summary_file_run _ _ _ _ bytes) by done.
  enough (assemble bytes result' = assemble bytes result) as -> by done.
  unfold assemble in *.
  destruct (fill_logo (readlines bytes) LOGO) as [lines0|e]; [|done].
  destruct (fill_fields lines0 result) as [final|e] eqn:Hfill; [|done].
  by rewrite (fill_fields_permutation lines0 result result' final).
Qed.

Lemma answer_order_is_irrelevant_witness :
  ∃ w',
    @get_summary_file stub "/app/template/template.md" answers_two true
      world_two = (Ok tt, w') ∧
    @get_summary_file stub "/app/template/template.md" answers_two_swapped
      true world_two = (Ok tt, w').
Proof.
  set (w' := (@get_summary_file stub "/app/template/template.md" answers_two
                true world_two).2).
  assert (@get_summary_file stub "/app/template/template.md" answers_two true
            world_two = (Ok tt, w')) as Hrun by by vm_compute.
  exists w'. split; [exact Hrun|].
  apply (@answer_order_is_irrelevant stub _ answers_two); [| | |exact Hrun].
  - unfold dict_wf. apply NoDup_cons. split; [|apply NoDup_singleton].
    intros ?%list_elem_of_singleton. discriminate.
  - apply no_answer_is_a_placeholder_spec. by vm_compute.
  - apply Permutation_swap.
Defined.

(** X8. A template that fits completes.  When the copy has a second line,
    every field of the answers has a placeholder line in it and the
    substitutions are independent, a run without [make_pdf] returns and
    leaves the assembled text over the copy. *)
Theorem get_summary_file_completes `{Externals}
    (path : string) (result : dict string) (w : world) (bytes : string)
    (lines0 : list string) :
  fs w !! path = Some bytes →
  path ≠ path_to_file w →
  fill_logo (readlines bytes) LOGO = Ok lines0 →
  dict_wf result →
  independent (readlines bytes) lines0 result →
  (∀ f, f ∈ result.*1 → placeholder f ∈ readlines bytes) →
  ∃ text,
    assemble bytes result = Ok text ∧
    get_summary_file path result false w = (Ok tt, written w bytes text).
Proof.
  intros Hp Hne Hlogo Hwf Hind Hall.
  destruct (fill_fields_present lines0 result) as [final Hfill].
  - done.
  - intros f a Hf Ha. by apply (Hind f Hf).
  - intros f Hf. destruct (index_present _ _ (Hall f Hf)) as [i Hi].
    apply (index_elem_of _ _ i).
    destruct (Hind f Hf) as (_ & H1 & H1').
    by rewrite (fill_logo_index (readlines bytes)).
  - exists (join_lines final).
    assert (assemble bytes result = Ok (join_lines final)) as Hasm
      by (unfold assemble; by rewrite Hlogo, Hfill).
    split; [done|].
    by rewrite (get_summary_file_run _ _ _ _ bytes), Hasm.
Qed.

Lemma get_summary_file_completes_witness :
  ∃ text,
    assemble template_two answers_two = Ok text ∧
    @get_summary_file stub "/app/template/template.md" answers_two false
      world_two = (Ok tt, @written stub world_two template_two text).
Proof.
  apply (@get_summary_file_completes stub _ _ _ _
           ["# Summary" +:+ nl; "![logo](template/img.svg)" +:+ nl;
            ":::owner:::" +:+ nl; ":::date:::" +:+ nl]).
  - by vm_compute.
  - vm_compute. discriminate.
  - by vm_compute.
  - unfold dict_wf. apply NoDup_cons. split; [|apply NoDup_singleton].
    intros ?%list_elem_of_singleton. discriminate.
  - intros f Hf. vm_compute in Hf.
    repeat (apply elem_of_cons in Hf as [->|Hf]);
      try (by apply elem_of_nil in Hf).
    + split_and!; [|by vm_compute..]. intros a Ha. vm_compute in Ha.
      repeat (apply elem_of_cons in Ha as [->|Ha]);
        try (by apply elem_of_nil in Ha); by vm_compute.
    + split_and!; [|by vm_compute..]. intros a Ha. vm_compute in Ha.
      repeat (apply elem_of_cons in Ha as [->|Ha]);
        try (by apply elem_of_nil in Ha); by vm_compute.
  - intros f Hf. vm_compute in Hf.
    repeat (apply elem_of_cons in Hf as [->|Hf]);
      try (by apply elem_of_nil in Hf).
    + change (readlines template_two)
        with ["# Summary" +:+ nl; "![logo](:::path_to_img:::)" +:+ nl;
              placeholder "owner"; placeholder "date"].
      do 3 right. left.
    + change (readlines template_two)
        with ["# Summary" +:+ nl; "![logo](:::path_to_img:::)" +:+ nl;
              placeholder "owner"; placeholder "date"].
      do 2 right. left.
Defined.



Lemma contains_spec old s : occurs old s ↔ contains old s = true.
Proof.
  induction s as [|c r IH].
  - simpl. rewrite orb_false_r. split.
    + intros (a & b & E). destruct old; [done|].
      apply (f_equal String.length) in E. rewrite !length_app_str in E.
      simpl in E. lia.
    + intros [t E]%startswith_spec. exists "", t. by rewrite app_empty_l.
  - cbn [contains]. rewrite orb_true_iff, <- IH. split.
    + apply occurs_cons_inv.
    + intros [[t E]%startswith_spec|Hr]; [|by apply occurs_cons].
      exists "", t. by rewrite app_empty_l.
Qed.

Lemma contains_false old s : contains old s = false → ¬ occurs old s.
Proof. intros E Ho%contains_spec. congruence. Qed.

(** X10. With no answers and no image token on the second line the
    document is the template's text: a run without [make_pdf] writes that
    text back, and the output file is the template byte for byte when the
    template has no carriage return. *)
Theorem nothing_to_fill_gives_the_template `{Externals}
    (path : string) (w : world) (bytes : string)
    (l0 l1 : string) (rest : list string) :
  fs w !! path = Some bytes →
  path ≠ path_to_file w →
  readlines bytes = l0 :: l1 :: rest →
  ¬ occurs TOKEN l1 →
  get_summary_file path [] false w
    = (Ok tt, written w bytes (universal_newlines bytes)) ∧
  (¬ has_CR bytes →
   fs (written w bytes (universal_newlines bytes)) !! path_to_file w
     = Some bytes).
Proof.
  intros Hp Hne Hlines Hno. split.
  - assert (fill_logo (readlines bytes) LOGO = Ok (readlines bytes)) as Hlogo.
    { unfold fill_logo, getitem. rewrite Hlines.
      change ((l0 :: l1 :: rest) !! 1) with (Some l1). cbv beta iota.
      change (<[1 := replace l1 ":::path_to_img:::" LOGO]> (l0 :: l1 :: rest))
        with (l0 :: replace l1 TOKEN LOGO :: rest).
      by rewrite replace_absent. }
    rewrite (get_summary_file_run _ _ _ _ bytes) by done.
    unfold assemble. rewrite Hlogo. cbn [fill_fields].
    unfold readlines. by rewrite join_split_lines.
  - intros Hcr. cbn [fs written]. rewrite lookup_insert_eq.
    rewrite universal_newlines_id by done.
    by rewrite overwrite_longer.
Qed.

Lemma nothing_to_fill_gives_the_template_witness :
  fs (@get_summary_file stub "/app/template/template.md" [] false
        world_misplaced).2 !! @path_to_file stub world_misplaced
  = Some template_misplaced.
Proof.
  destruct (@nothing_to_fill_gives_the_template stub
              "/app/template/template.md" world_misplaced template_misplaced
              ("![logo](:::path_to_img:::)" +:+ nl) ("# Summary" +:+ nl) [])
    as [Hrun Hfile].
  - by vm_compute.
  - vm_compute. discriminate.
  - by vm_compute.
  - apply contains_false. by vm_compute.
  - rewrite Hrun. apply Hfile. apply contains_false. by vm_compute.
Defined.

(** ** The answer generator, further *)

Lemma dict_set_new {V} k (v : V) (d : dict V) :
  k ∉ d.*1 → dict_set k v d = d ++ [(k, v)].
Proof.
  induction d as [|[k' v'] d IH]; intros Hk; [done|]. csimpl in *.
  apply not_elem_of_cons in Hk as [Hne Hk].
  rewrite decide_False by done. by rewrite IH.
Qed.

Section answers.
Context `{Externals}.

Lemma answer_fields_replies transcript its : ∀ acc w result w',
  answer_fields transcript acc its w = (Ok result, w') →
  NoDup (acc.*1 ++ its.*1) →
  ∃ calls,
    Forall2 (λ kv qa, reads kv.2 qa) its calls ∧
    length (replies (llm w) transcript calls) = length its ∧
    result = acc ++ zip its.*1 (replies (llm w) transcript calls).
Proof.
  induction its as [|kv its IH]; intros acc w result w' Hrun Hnd.
  - injection Hrun as <- <-. exists []. split; [done|]. split; [done|].
    simpl. by rewrite app_nil_r.
  - simpl in Hrun. unfold mbind, prog_bind, bind in Hrun.
    destruct (answer_field transcript acc kv w) as [[acc1|e] w1] eqn:H1;
      [|done].
    assert (kv.1 ∉ acc.*1) as Hfresh.
    { csimpl in Hnd. apply NoDup_app in Hnd as (_ & Hdisj & _).
      intros Hin. apply (Hdisj _ Hin). left. }
    revert H1. unfold answer_field, mbind, prog_bind, bind, lift, emit,
      chain_invoke, mret, prog_ret, ret.
    destruct (subscript kv.2 "question") as [q|e] eqn:Hq; [|done].
    destruct (subscript kv.2 "ans_template") as [a|e] eqn:Ha; [|done].
    cbn [fs llm drawn trace].
    destruct (invoke (llm w) transcript q a) as [b [answer|e]] eqn:Hi;
      [|done].
    intros [= <- <-].
    apply IH in Hrun as (calls & Hcalls & Hlen & ->).
    + exists ((q, a) :: calls). split; [by constructor|].
      cbn [replies fst snd llm] in *. rewrite Hi. csimpl.
      split; [by rewrite Hlen|].
      by rewrite dict_set_new, <- app_assoc.
    + rewrite dict_set_new_keys by done. csimpl in Hnd.
      by rewrite <- app_assoc.
Qed.

Lemma answer_fields_turns transcript its : ∀ acc w r w',
  answer_fields transcript acc its w = (r, w') →
  ∃ calls,
    trace w' = trace w ++ concat (turn transcript <$> calls) ∧
    length calls ≤ length its.
Proof.
  induction its as [|kv its IH]; intros acc w r w' Hrun.
  - injection Hrun as <- <-. exists []. simpl. by rewrite app_nil_r.
  - simpl in Hrun. unfold mbind, prog_bind, bind in Hrun.
    destruct (answer_field transcript acc kv w) as [r1 w1] eqn:H1.
    revert H1. unfold answer_field, mbind, prog_bind, bind, lift, emit,
      chain_invoke, mret, prog_ret, ret.
    destruct (subscript kv.2 "question") as [q|e] eqn:Hq.
    2: { intros [= <- <-]. injection Hrun as <- <-. exists [].
         simpl. rewrite app_nil_r. split; [done | lia]. }
    destruct (subscript kv.2 "ans_template") as [a|e] eqn:Ha.
    2: { intros [= <- <-]. injection Hrun as <- <-. exists [].
         simpl. rewrite app_nil_r. split; [done | lia]. }
    cbn [fs llm drawn trace].
    destruct (invoke (llm w) transcript q a) as [b [answer|e]] eqn:Hi;
      intros [= <- <-].
    + apply IH in Hrun as (calls & Htr & Hlen).
      exists ((q, a) :: calls). cbn [trace] in Htr. split; [|simpl; lia].
      rewrite Htr. csimpl. by rewrite <- !app_assoc.
    + injection Hrun as <- <-. exists [(q, a)]. cbn [trace].
      split; [|simpl; lia]. csimpl. by rewrite <- app_assoc.
Qed.

End answers.

(** X11. Every key gets the reply to its own question.  With distinct
    keys, the answer set [get_answer] returns is the keys of the question
    set paired, in order, with what the backend replied to the calls made
    with each entry's question and answer template, one after the other
    from the backend's state at the start. *)
Theorem get_answer_pairs_keys_with_replies `{Externals}
    (transcript : string) (Q : dict pyval) (w w' : world)
    (result : dict string) :
  dict_wf Q →
  get_answer transcript (PDict Q) w = (Ok result, w') →
  ∃ calls,
    Forall2 (λ kv qa, reads kv.2 qa) Q calls ∧
    length (replies (llm w) transcript calls) = length Q ∧
    result = zip Q.*1 (replies (llm w) transcript calls).
Proof.
  intros Hwf Hrun.
  by apply answer_fields_replies in Hrun.
Qed.

Lemma get_answer_pairs_keys_with_replies_witness :
  ∃ w',
    @get_answer stub_counting "transcript" (PDict questions_two)
      world_counting
    = (Ok [("date", "first"); ("owner", "later")], w').
Proof.
  set (w' := (@get_answer stub_counting "transcript" (PDict questions_two)
                world_counting).2).
  set (result := [("date", "first"); ("owner", "later")]).
  assert (@get_answer stub_counting "transcript" (PDict questions_two)
            world_counting = (Ok result, w')) as Hrun by by vm_compute.
  exists w'.
  assert (dict_wf questions_two) as Hwf.
  { unfold dict_wf. apply NoDup_cons. split; [|apply NoDup_singleton].
    intros ?%list_elem_of_singleton. discriminate. }
  destruct (@get_answer_pairs_keys_with_replies stub_counting _ _ _ _ _
              Hwf Hrun) as (calls & _ & _ & _).
  done.
Defined.

(** X12. [get_answer] touches no file and draws no token, however it
    ends; what it adds to the trace is whole turns, a progress line and
    then the call it announces, at most one turn per entry.  A question
    set that is no mapping gets no turn at all. *)
Theorem get_answer_only_talks_to_the_backend `{Externals}
    (transcript : string) (questions : pyval) (w w' : world)
    (r : outcome (dict string)) :
  get_answer transcript questions w = (r, w') →
  fs w' = fs w ∧ drawn w' = drawn w ∧
  ∃ calls,
    trace w' = trace w ++ concat (turn transcript <$> calls) ∧
    match questions with
    | PDict Q => length calls ≤ length Q
    | _ => calls = []
    end.
Proof.
  intros Hrun. unfold get_answer, mbind, prog_bind, bind, lift in Hrun.
  destruct questions as [| | | | |Q]; simpl in Hrun;
    try (injection Hrun as <- <-; split_and!; try done; exists [];
         simpl; by rewrite app_nil_r).
  pose proof (answer_fields_frame _ _ _ _ _ _ Hrun) as (Hfs & Hdr & _).
  apply answer_fields_turns in Hrun as (calls & Htr & Hlen).
  split_and!; try done. by exists calls.
Qed.

Lemma get_answer_only_talks_to_the_backend_witness :
  ∃ r w',
    @get_answer stub_down "transcript" (PDict questions_two) world_down
      = (r, w') ∧
    fs w' = fs world_down ∧ drawn w' = drawn world_down.
Proof.
  set (rw := @get_answer stub_down "transcript" (PDict questions_two)
               world_down).
  exists rw.1, rw.2.
  assert (@get_answer stub_down "transcript" (PDict questions_two) world_down
          = (rw.1, rw.2)) as Hrun by apply surjective_pairing.
  split; [done|].
  by destruct (@get_answer_only_talks_to_the_backend stub_down _ _ _ _ _ Hrun)
    as (Hfs & Hdr & _).
Defined.

(** ** The pipeline, further *)

Section pipeline_further.
Context `{Externals}.

Lemma main_after_answers w tbytes qbytes questions result w1 :
  fs w !! join PATH_TO_DIR "transcript.md" = Some tbytes →
  fs w !! join3 PATH_TO_DIR "template" "questions.yaml" = Some qbytes →
  safe_load (universal_newlines qbytes) = Ok questions →
  get_answer (universal_newlines tbytes) questions w = (Ok result, w1) →
  main w =
    get_summary_file (join3 PATH_TO_DIR "template" "template.md") result true
      (World (fs w1) (llm w1) (drawn w1) (trace w1 ++ [PrintGenerating])).
Proof.
  intros Ht Hq Hload Hans. unfold main.
  unfold mbind, prog_bind, bind at 1. rewrite get_transcript_run, Ht.
  unfold mbind, prog_bind, bind at 1. rewrite get_questions_run, Hq, Hload.
  unfold mbind, prog_bind, bind at 1. rewrite Hans.
  by unfold mbind, prog_bind, bind, emit.
Qed.

End pipeline_further.

(** X13. [main] reads its two inputs before anything else.  When the
    transcript or the question file is missing, when the parser rejects
    the questions, or when they are no mapping (an empty file gives
    [None]), the run ends with that error in the world it started in: no
    question is asked and no file is written. *)
Theorem main_stops_before_the_backend `{Externals} (w : world) :
  (fs w !! join PATH_TO_DIR "transcript.md" = None →
   main w = (Raise (FileNotFoundError (join PATH_TO_DIR "transcript.md")), w)) ∧
  (∀ tbytes,
     fs w !! join PATH_TO_DIR "transcript.md" = Some tbytes →
     match fs w !! join3 PATH_TO_DIR "template" "questions.yaml" with
     | None =>
         main w = (Raise (FileNotFoundError
                            (join3 PATH_TO_DIR "template" "questions.yaml")), w)
     | Some qbytes =>
         match safe_load (universal_newlines qbytes) with
         | Raise e => main w = (Raise e, w)
         | Ok (PDict _) => True
         | Ok _ => main w = (Raise AttributeError, w)
         end
     end).
Proof.
  split.
  - intros Ht. unfold main. unfold mbind, prog_bind, bind at 1.
    by rewrite get_transcript_run, Ht.
  - intros tbytes Ht.
    assert (main w =
            match get_questions
                    (join3 PATH_TO_DIR "template" "questions.yaml") w with
            | (Ok questions, w0) =>
                match get_answer (universal_newlines tbytes) questions w0 with
                | (Ok result, w1) =>
                    get_summary_file
                      (join3 PATH_TO_DIR "template" "template.md") result true
                      (World (fs w1) (llm w1) (drawn w1)
                             (trace w1 ++ [PrintGenerating]))
                | (Raise e, w1) => (Raise e, w1)
                end
            | (Raise e, w0) => (Raise e, w0)
            end) as ->.
    { unfold main. unfold mbind, prog_bind, bind at 1.
      rewrite get_transcript_run, Ht.
      unfold mbind, prog_bind, bind at 1.
      destruct (get_questions _ w) as [[questions|e] w0]; [|done].
      unfold mbind, prog_bind, bind at 1.
      by destruct (get_answer _ questions w0) as [[result|e] w1]. }
    rewrite get_questions_run.
    destruct (fs w !! join3 PATH_TO_DIR "template" "questions.yaml")
      as [qbytes|]; [|done].
    destruct (safe_load (universal_newlines qbytes)) as [questions|e];
      [|done].
    by destruct questions.
Qed.

Lemma main_stops_before_the_backend_witness :
  @main stub (world_date yaml_sequence)
  = (Raise AttributeError, world_date yaml_sequence).
Proof.
  destruct (@main_stops_before_the_backend stub (world_date yaml_sequence))
    as [_ Hload].
  specialize (Hload "The call took place on 03.04.2024 to discuss pricing.").
  by apply Hload.
Defined.

(** X14. The template is looked at last.  When the inputs load and every
    question is answered, a missing template ends the run with
    [FileNotFoundError] only then: all the calls of the backend are made,
    the line announcing the generation is printed and a token is drawn,
    and no file is written. *)
Theorem missing_template_is_found_last `{Externals}
    (w w1 : world) (tbytes qbytes : string) (questions : pyval)
    (result : dict string) :
  fs w !! join PATH_TO_DIR "transcript.md" = Some tbytes →
  fs w !! join3 PATH_TO_DIR "template" "questions.yaml" = Some qbytes →
  safe_load (universal_newlines qbytes) = Ok questions →
  get_answer (universal_newlines tbytes) questions w = (Ok result, w1) →
  fs w !! join3 PATH_TO_DIR "template" "template.md" = None →
  main w =
    (Raise (FileNotFoundError (join3 PATH_TO_DIR "template" "template.md")),
     World (fs w) (llm w1) (S (drawn w)) (trace w1 ++ [PrintGenerating])).
Proof.
  intros Ht Hq Hload Hans Htemplate.
  rewrite (main_after_answers _ _ _ _ _ _ Ht Hq Hload Hans).
  destruct (answer_fields_frame (universal_newlines tbytes)
              match questions with PDict d => d | _ => [] end [] w
              (Ok result) w1) as (Hfs & Hdr & _).
  { revert Hans. unfold get_answer, mbind, prog_bind, bind, lift.
    by destruct questions. }
  rewrite get_summary_file_no_template by (cbn [fs]; by rewrite Hfs).
  cbn [fs llm drawn trace]. by rewrite Hfs, Hdr.
Qed.

Lemma missing_template_is_found_last_witness :
  ∃ w',
    @main stub (@World stub (delete "/app/template/template.md"
                               (fs_date yaml_date)) tt 0 [])
    = (Raise (FileNotFoundError "/app/template/template.md"), w') ∧
    trace w'
    = [PrintQuestion (PStr "When did the call occur?");
       Invoke "The call took place on 03.04.2024 to discuss pricing."
         (PStr "When did the call occur?") (PStr "DD.MM.YYYY");
       PrintGenerating].
Proof.
  set (w := @World stub (delete "/app/template/template.md"
                           (fs_date yaml_date)) tt 0 []).
  set (w1 := (@get_answer stub
                "The call took place on 03.04.2024 to discuss pricing."
                (PDict questions_date) w).2).
  eexists. split.
  - apply (@missing_template_is_found_last stub w w1
             "The call took place on 03.04.2024 to discuss pricing."
             yaml_date (PDict questions_date) answers_date);
      by vm_compute.
  - by vm_compute.
Defined.

(** X15. A run that goes well, end to end.  When both inputs load, the
    question set has distinct keys and complete entries and the backend
    raises nothing, [get_answer] returns answers for exactly those keys;
    and when the template's text assembles with them and the engine
    renders it, [main] returns, having written the markdown file and the
    PDF and no other file, asked each question once and printed the line
    that announces the generation before rendering. *)
Theorem main_completes `{Externals}
    (w : world) (tbytes qbytes bytes : string) (Q : dict pyval) :
  fs w !! join PATH_TO_DIR "transcript.md" = Some tbytes →
  fs w !! join3 PATH_TO_DIR "template" "questions.yaml" = Some qbytes →
  safe_load (universal_newlines qbytes) = Ok (PDict Q) →
  dict_wf Q →
  Forall (λ kv, ∃ qa, reads kv.2 qa) Q →
  never_raises →
  fs w !! join3 PATH_TO_DIR "template" "template.md" = Some bytes →
  join3 PATH_TO_DIR "template" "template.md" ≠ path_to_file w →
  ∃ result w1,
    get_answer (universal_newlines tbytes) (PDict Q) w = (Ok result, w1) ∧
    result.*1 = Q.*1 ∧
    ∀ text pdf,
      assemble bytes result = Ok text →
      render (the_section text) = Ok pdf →
      main w =
        (Ok tt,
         World (<[path_to_pdf w := pdf]>
                  (<[path_to_file w := overwrite bytes text]> (fs w)))
               (llm w1) (S (drawn w))
               (trace w1 ++ [PrintGenerating; AddSection (the_section text)])).
Proof.
  intros Ht Hq Hload Hwf Hentries Hnever Htemplate Hne.
  destruct (answer_fields_total (universal_newlines tbytes) Q [] w
              Hnever Hentries) as (result & w1 & Hans).
  exists result, w1. split; [done|].
  destruct (answer_fields_ok _ _ _ _ _ _ Hans) as (Hkeys & _ & _ & _ & Hfs & Hdr);
    [done|].
  split; [done|]. intros text pdf Htext Hpdf.
  rewrite (main_after_answers _ _ _ _ _ _ Ht Hq Hload Hans).
  rewrite (get_summary_file_run _ _ _ _ bytes).
  - rewrite Htext. cbn zeta. cbn [fs llm drawn trace written]. rewrite Hpdf.
    unfold path_to_pdf, path_to_file. cbn [fs llm drawn trace].
    by rewrite Hfs, Hdr, <- app_assoc.
  - cbn [fs]. by rewrite Hfs.
  - unfold path_to_file in *. cbn [drawn]. by rewrite Hdr.
Qed.

Lemma main_completes_witness :
  ∃ w',
    @main stub (world_date yaml_date) = (Ok tt, w') ∧
    fs w' !! @path_to_file stub (world_date yaml_date)
    = Some ("# Summary" +:+ nl +:+ "![logo](template/img.svg)" +:+ nl +:+
            "03.04.2024:" +:+ nl).
Proof.
  destruct (@main_completes stub (world_date yaml_date)
              "The call took place on 03.04.2024 to discuss pricing."
              yaml_date template_date questions_date)
    as (result & w1 & Hans & _ & Hmain).
  - by vm_compute.
  - by vm_compute.
  - by vm_compute.
  - apply NoDup_singleton.
  - repeat constructor.
    by exists (PStr "When did the call occur?", PStr "DD.MM.YYYY").
  - intros b t q a. by exists "03.04.2024".
  - by vm_compute.
  - vm_compute. discriminate.
  - assert ((Ok result, w1)
            = (Ok answers_date,
               (@get_answer stub
                  "The call took place on 03.04.2024 to discuss pricing."
                  (PDict questions_date) (world_date yaml_date)).2))
      as [= -> ->] by (rewrite <- Hans; by vm_compute).
    eexists. split.
    + apply Hmain; by vm_compute.
    + by vm_compute.
Defined.

(** ** Running the assembler twice *)



(** ** What assembly keeps *)

(** X17. Assembly keeps the number of lines: the image step and every
    substitution replace one entry of the list of lines by one string. *)
Theorem assembly_keeps_the_number_of_lines
    (lines lines0 final : list string) (result : dict string) :
  fill_logo lines LOGO = Ok lines0 →
  fill_fields lines0 result = Ok final →
  length final = length lines ∧ 2 ≤ length final.
Proof.
  intros Hlogo Hfill.
  apply fill_logo_length in Hlogo as [Hlen H2].
  apply fill_fields_length in Hfill. lia.
Qed.

Lemma assembly_keeps_the_number_of_lines_witness :
  ∃ final,
    fill_fields ["# Summary" +:+ nl; "![logo](template/img.svg)" +:+ nl;
                 ":::owner:::" +:+ nl; ":::date:::" +:+ nl] answers_two
      = Ok final ∧
    length final = 4.
Proof.
  set (final := ["# Summary" +:+ nl; "![logo](template/img.svg)" +:+ nl;
                 "Ann"; "03.04.2024"]).
  exists final. split; [by vm_compute|].
  destruct (assembly_keeps_the_number_of_lines (readlines template_two)
              ["# Summary" +:+ nl; "![logo](template/img.svg)" +:+ nl;
               ":::owner:::" +:+ nl; ":::date:::" +:+ nl] final answers_two)
    as [Hlen _].
  - by vm_compute.
  - by vm_compute.
  - rewrite Hlen. by vm_compute.
Defined.

(** X18. A placeholder that the template repeats is filled once.  With
    independent substitutions, the first line equal to a field's
    placeholder gets the answer and every later line equal to it is still
    the placeholder in the assembled document. *)
Theorem repeated_placeholder_stays
    (lines lines0 final : list string) (result : dict string)
    (field : string) (i j : nat) :
  fill_logo lines LOGO = Ok lines0 →
  fill_fields lines0 result = Ok final →
  dict_wf result →
  independent lines lines0 result →
  field ∈ result.*1 →
  index lines (placeholder field) = Ok i →
  lines !! j = Some (placeholder field) →
  j ≠ i →
  final !! j = Some (placeholder field).
Proof.
  intros Hlogo Hfill Hwf Hind Hfield Hi Hj Hji.
  assert (∀ f a, f ∈ result.*1 → a ∈ result.*2 → a ≠ placeholder f)
    as Hans by (intros f a Hf Ha; by apply (Hind f Hf)).
  destruct (fill_fields_end_to_end lines0 result final Hwf Hans Hfill)
    as [_ Hothers].
  assert (j ≠ 1) as Hj1.
  { intros ->. destruct (Hind field Hfield) as (_ & H1 & _). by apply H1. }
  assert (lines0 !! j = Some (placeholder field)) as Hj0
    by by rewrite (fill_logo_elsewhere lines lines0).
  rewrite Hothers; [done|].
  intros g Hg Hgj. pose proof Hgj as [Hgl _]%index_ok.
  assert (g = field) as -> by (apply placeholder_inj; congruence).
  destruct (Hind field Hfield) as (_ & H1 & H1').
  rewrite (fill_logo_index lines lines0) in Hgj by done. congruence.
Qed.

Lemma repeated_placeholder_stays_witness :
  ∃ final,
    fill_fields ["# Summary" +:+ nl; "![logo](template/img.svg)" +:+ nl;
                 ":::date:::" +:+ nl; ":::date:::" +:+ nl] answers_date
      = Ok final ∧
    final !! 3 = Some (placeholder "date").
Proof.
  set (lines := ["# Summary" +:+ nl; "![logo](:::path_to_img:::)" +:+ nl;
                 ":::date:::" +:+ nl; ":::date:::" +:+ nl]).
  set (lines0 := ["# Summary" +:+ nl; "![logo](template/img.svg)" +:+ nl;
                  ":::date:::" +:+ nl; ":::date:::" +:+ nl]).
  set (final := ["# Summary" +:+ nl; "![logo](template/img.svg)" +:+ nl;
                 "03.04.2024"; ":::date:::" +:+ nl]).
  exists final. split; [by vm_compute|].
  apply (repeated_placeholder_stays lines lines0 final answers_date "date" 2).
  - by vm_compute.
  - by vm_compute.
  - apply NoDup_singleton.
  - intros f ->%list_elem_of_singleton. split_and!.
    + intros a ->%list_elem_of_singleton. by vm_compute.
    + by vm_compute.
    + by vm_compute.
  - left.
  - by vm_compute.
  - by vm_compute.
  - lia.
Defined.

(** ** Where the outputs go *)

(** X19. The two outputs lie directly in the program's directory: each
    path is that directory, a separator that is ["/"] or, when the
    directory is empty or ends with a slash, nothing, and the file name
    [summary<token>.md] or [summary<token>.pdf]. *)
Theorem outputs_are_in_the_program_directory `{Externals} (w : world) :
  ∃ sep,
    (sep = "" ∨ sep = "/") ∧
    path_to_file w
      = PATH_TO_DIR +:+ sep +:+ "summary" +:+ uuid4 (drawn w) +:+ ".md" ∧
    path_to_pdf w
      = PATH_TO_DIR +:+ sep +:+ "summary" +:+ uuid4 (drawn w) +:+ ".pdf".
Proof.
  assert (∃ sep, (sep = "" ∨ sep = "/") ∧
            ∀ name, join PATH_TO_DIR ("summary" +:+ name)
                    = PATH_TO_DIR +:+ sep +:+ "summary" +:+ name)
    as (sep & Hsep & Hj).
  { assert (∀ name, startswith "/" ("summary" +:+ name) = false) as Hrel
      by done.
    unfold join. destruct (decide (PATH_TO_DIR = "")) as [->|Hdir].
    - exists "". split; [by left|]. intros name. by rewrite Hrel.
    - destruct (ends_with_slash PATH_TO_DIR).
      + exists "". split; [by left|]. intros name. by rewrite Hrel.
      + exists "/". split; [by right|]. intros name. by rewrite Hrel. }
  exists sep. split; [done|].
  unfold path_to_pdf, path_to_file, file_name_of. rewrite Hj.
  split; [done|].
  replace (PATH_TO_DIR +:+ sep +:+ "summary" +:+ uuid4 (drawn w) +:+ ".md")
    with ((PATH_TO_DIR +:+ sep +:+ "summary" +:+ uuid4 (drawn w) +:+ ".")
          +:+ "md") by by rewrite !app_assoc_str.
  rewrite (drop_last_app _ "md"). by rewrite !app_assoc_str.
Qed.
